(** * guild-vision-bot: a shallow embedding of [main.py]

    The development follows the three routines of the script: the local
    regex parse ([extract_names_and_points]), the remote extraction
    ([extract_with_gemini]), the capture loop and the aggregation/export
    block of the [__main__] section.

    Text is modelled as ASCII ([list ascii] internally, [string] at the
    interface).  External collaborators (the screen-capture backend, the
    remote model, [json.loads], the file system) are fields of a [World]
    record: the program is a function of the answers they give. *)

From Stdlib Require Import List String Ascii ZArith Lia Bool Arith DecimalString DecimalNat SpecFloat Sorted.
Import ListNotations.

Set Implicit Arguments.
Set Warnings "-register-all".

(* ================================================================== *)
(** * Python string primitives used by the script *)

Module Py.

Definition code (c : ascii) : nat := nat_of_ascii c.

Definition between (lo hi : nat) (c : ascii) : bool :=
  (lo <=? code c) && (code c <=? hi).

(** [str.isspace] on ASCII: TAB..CR, FS..US and the blank.  The regex
    escape [\s] of a [str] pattern uses the same table. *)
Definition isspace (c : ascii) : bool := between 9 13 c || between 28 32 c.

(** [\d] on ASCII. *)
Definition isdigit (c : ascii) : bool := between 48 57 c.

Definition isupper (c : ascii) : bool := between 65 90 c.
Definition islower (c : ascii) : bool := between 97 122 c.

Fixpoint lstrip (s : list ascii) : list ascii :=
  match s with
  | [] => []
  | c :: s' => if isspace c then lstrip s' else s
  end.

Definition rstrip (s : list ascii) : list ascii := rev (lstrip (rev s)).

(** [str.strip()] *)
Definition strip (s : list ascii) : list ascii := rstrip (lstrip s).

(** [text.split(sep)] for a one-character separator; [cur] holds the
    current field, reversed. *)
Fixpoint split_on (sep : ascii) (cur : list ascii) (s : list ascii)
  : list (list ascii) :=
  match s with
  | [] => [rev cur]
  | c :: s' =>
      if Ascii.eqb c sep then rev cur :: split_on sep [] s'
      else split_on sep (c :: cur) s'
  end.

Definition split (sep : ascii) (s : list ascii) : list (list ascii) :=
  split_on sep [] s.

Fixpoint starts_with (p s : list ascii) : bool :=
  match p, s with
  | [], _ => true
  | _ :: _, [] => false
  | a :: p', b :: s' => Ascii.eqb a b && starts_with p' s'
  end.

(** [s.replace(old, new)] for a non-empty [old]: leftmost, non-overlapping
    occurrences.  [skip] counts the characters of a matched occurrence
    still to be dropped. *)
Fixpoint replace_from (old new : list ascii) (skip : nat) (s : list ascii)
  : list ascii :=
  match s with
  | [] => []
  | c :: s' =>
      match skip with
      | S k => replace_from old new k s'
      | O =>
          if starts_with old s
          then new ++ replace_from old new (List.length old - 1) s'
          else c :: replace_from old new 0 s'
      end
  end.

Definition replace (old new s : list ascii) : list ascii :=
  replace_from old new 0 s.

Definition digit_value (c : ascii) : Z := Z.of_nat (code c - 48).

(** [int(s)] on a string of decimal digits. *)
Definition int (s : list ascii) : Z :=
  fold_left (fun acc c => (10 * acc + digit_value c)%Z) s 0%Z.

End Py.

(* ================================================================== *)
(** * The fragment of [re] the script uses

    The pattern of [extract_names_and_points] is a concatenation of greedy
    repetitions of one-character classes, two of them capturing.  A greedy
    repetition first takes as many characters as it can (at most [rmax])
    and gives them back one at a time, down to [rmin], until the rest of
    the pattern matches: the backtracking order of [re]. *)

Module Re.

Record item : Type := Item {
  cls : ascii -> bool;      (* the character class *)
  rmin : nat;               (* fewest repetitions *)
  rmax : option nat;        (* most repetitions, [None] for unbounded *)
  capturing : bool          (* is the item a parenthesised group? *)
}.

(** Longest run of characters of class [p] at the head of [s], cut at the
    bound. *)
Fixpoint count_prefix (p : ascii -> bool) (bound : option nat)
  (s : list ascii) : nat :=
  match s with
  | [] => 0
  | c :: s' =>
      if p c then
        match bound with
        | None => S (count_prefix p None s')
        | Some O => 0
        | Some (S b) => S (count_prefix p (Some b) s')
        end
      else 0
  end.

(** Try [k n], [k (n-1)], ... down to [k lo]; first success wins. *)
Fixpoint backoff {A : Type} (n lo : nat) (k : nat -> option A) : option A :=
  if n <? lo then None
  else
    match k n with
    | Some r => Some r
    | None =>
        match n with
        | O => None
        | S n' => backoff n' lo k
        end
    end.

(** Match the items at the head of [s]; the result lists the text of the
    capturing groups, in order. *)
Fixpoint match_here (items : list item) (s : list ascii)
  : option (list (list ascii)) :=
  match items with
  | [] => Some []
  | it :: rest =>
      backoff (count_prefix (cls it) (rmax it) s) (rmin it)
        (fun n =>
           match match_here rest (skipn n s) with
           | Some gs => Some (if capturing it then firstn n s :: gs else gs)
           | None => None
           end)
  end.

(** [re.search]: the leftmost start position at which the pattern
    matches. *)
Fixpoint search (items : list item) (s : list ascii)
  : option (list (list ascii)) :=
  match match_here items s with
  | Some gs => Some gs
  | None =>
      match s with
      | [] => None
      | _ :: s' => search items s'
      end
  end.

End Re.

(* ================================================================== *)
(** * Member records and the local parse *)

Record MemberRecord : Type := Member {
  Name : string;
  Points : Z
}.

Module LocalParse.

Import Py Re.

Definition is_underscore (c : ascii) : bool := Ascii.eqb c "_"%char.
Definition is_blank (c : ascii) : bool := Ascii.eqb c " "%char.
Definition is_hyphen (c : ascii) : bool := Ascii.eqb c "-"%char.

(** [[A-Za-z0-9_ -]] *)
Definition name_class (c : ascii) : bool :=
  isupper c || islower c || isdigit c || is_underscore c || is_blank c
  || is_hyphen c.

(** [[A-Za-z0-9_ ]], the characters [re.sub] keeps. *)
Definition clean_class (c : ascii) : bool :=
  isupper c || islower c || isdigit c || is_underscore c || is_blank c.

(** [r"([A-Za-z0-9_ -]+)\s*(\d{3,5})"] *)
Definition pattern : list item :=
  [ Item name_class 1 None true;
    Item isspace 0 None false;
    Item isdigit 3 (Some 5) true ].

(** [re.sub(r"[^A-Za-z0-9_ ]", "", name)] *)
Definition sub_clean (name : list ascii) : list ascii :=
  filter clean_class name.

(** The body of the [for line in lines] loop: [None] when the line adds
    nothing to [names_points]. *)
Definition parse_line (line : list ascii) : option MemberRecord :=
  let line := strip line in
  match line with
  | [] => None
  | _ :: _ =>
      match search pattern line with
      | Some [g1; g2] =>
          let name := strip g1 in
          let points := strip g2 in
          let name := strip (sub_clean name) in
          Some (Member (string_of_list_ascii name) (int points))
      | _ => None
      end
  end.

Fixpoint parse_lines (lines : list (list ascii)) : list MemberRecord :=
  match lines with
  | [] => []
  | line :: rest =>
      match parse_line line with
      | Some r => r :: parse_lines rest
      | None => parse_lines rest
      end
  end.

Definition newline : ascii := "010"%char.

Definition extract_names_and_points (text : string) : list MemberRecord :=
  parse_lines (split newline (list_ascii_of_string text)).

End LocalParse.

(* ================================================================== *)
(** * Frames: PIL images and the arrays [np.array] makes of them *)

Module Frames.

(** An RGB pixel, one value per band. *)
Definition Pixel : Type := (N * N * N)%type.

(** A PIL image: its size and its rows of pixels, top row first. *)
Record Image : Type := MkImage {
  width : nat;
  height : nat;
  rows : list (list Pixel)
}.

Definition black : Pixel := (0%N, 0%N, 0%N).

(** [img.getpixel((x, y))] *)
Definition getpixel (img : Image) (x y : nat) : Pixel :=
  nth x (nth y (rows img) []) black.

(** The image holds [height] rows of [width] pixels. *)
Definition well_formed (img : Image) : Prop :=
  List.length (rows img) = height img /\
  Forall (fun r => List.length r = width img) (rows img).

Record ndarray : Type := MkArray {
  shape : list nat;
  data : list N            (* row-major *)
}.

Definition bands (p : Pixel) : list N :=
  let '(r, g, b) := p in [r; g; b].

(** [np.array(img)]: shape (height, width, 3). *)
Definition np_array (img : Image) : ndarray :=
  MkArray [height img; width img; 3] (flat_map (flat_map bands) (rows img)).

Definition shape_eqb (s1 s2 : list nat) : bool :=
  if list_eq_dec Nat.eq_dec s1 s2 then true else false.

(** [np.array_equal(a1, a2)]: [False] on a shape mismatch, otherwise
    [bool((a1 == a2).all())]. *)
Definition array_equal (a1 a2 : ndarray) : bool :=
  if negb (shape_eqb (shape a1) (shape a2)) then false
  else forallb (fun xy => N.eqb (fst xy) (snd xy)) (combine (data a1) (data a2)).

End Frames.

(* ================================================================== *)
(** * Exceptions, JSON values, the outside world and the effects *)

Inductive exn_class : Type :=
| PyAutoGUIException
| UnboundLocalError
| AttributeError
| TypeError
| OtherException (name : string).

(** An exception: its class and [str(e)]. *)
Record exn : Type := Exn {
  exn_cls : exn_class;
  exn_msg : string
}.

(** A Python [float]: an IEEE 754 double. *)
Definition float : Type := spec_float.

(** Values [json.loads] returns.  A float is kept as its literal. *)
Inductive json : Type :=
| JNull
| JBool (b : bool)
| JInt (n : Z)
| JFloat (literal : string)
| JStr (s : string)
| JList (l : list json)
| JDict (d : list (string * json)).

(** A part of the request: the prompt text or
    [types.Part.from_bytes(data=..., mime_type=...)]. *)
Inductive Part : Type :=
| TextPart (text : string)
| BytesPart (data : list Init.Byte.byte) (mime_type : string).

(** The response object, as far as the script reads it: [response.text],
    which is [None] when the model returned no text. *)
Record Response : Type := MkResponse {
  text : option string
}.

(** What a call of the spreadsheet writer leaves behind: it returned and
    the file holds [rows], or it raised [ex], having left a file holding
    [partial] or none. *)
Inductive Written (A : Type) : Type :=
| Wrote (rows : A)
| Failed (ex : exn) (partial : option A).

Arguments Wrote {A} rows.
Arguments Failed {A} ex partial.

Record World : Type := MkWorld {
  (** the global [stop_capture_flag] as iteration [i] reads it *)
  stop_capture_flag : nat -> bool;
  (** [pyautogui.screenshot(region=GAME_WINDOW_REGION)] in iteration [i] *)
  screenshot : nat -> nat * nat * nat * nat -> exn + Frames.Image;
  (** [current_screenshot.save(filename)] in iteration [i]; [None]: saved *)
  save : nat -> string -> option exn;
  (** [sorted(glob.glob(... "guild_screenshot_*.png"))] *)
  glob_screenshots : list string;
  (** [os.environ.get] *)
  environ_get : string -> option string;
  (** [open(path, "rb").read()] *)
  read_bytes : string -> exn + list Init.Byte.byte;
  (** [client.models.generate_content(model=..., contents=...)] *)
  generate_content : string -> list Part -> exn + Response;
  (** [json.loads] *)
  json_loads : string -> exn + json;
  (** [df.to_excel(excel_filename, index=False)] on a frame with the
      columns Name and Points: the rows the file holds, each number cell
      by the value stored in it *)
  to_excel : list (string * Z) -> Written (list (string * Z));
  (** the whole export chain of pandas, from [pd.DataFrame] to [to_excel],
      on rows that are not all {Name: str, Points: int} objects: the rows
      of the file it writes *)
  pandas_export : list json -> Written (list (list json))
}.

(** A workbook on disk: rows under the header Name, Points, or the rows
    pandas made of data of another shape. *)
Inductive Workbook : Type :=
| Members (rows : list (string * Z))
| OtherRows (rows : list (list json)).

(** What a run does to the outside, oldest entry first. *)
Record Effects : Type := MkEffects {
  stdout : list string;                       (* lines printed *)
  grabs : list Frames.Image;                  (* frames the backend returned *)
  saved : list (string * Frames.Image);       (* image files written *)
  requests : list (string * list Part);       (* remote requests issued *)
  workbooks : list (string * Workbook)         (* spreadsheets written *)
}.

Definition no_effects : Effects := MkEffects [] [] [] [] [].

Definition print (line : string) (e : Effects) : Effects :=
  MkEffects (stdout e ++ [line]) (grabs e) (saved e) (requests e) (workbooks e).

Definition record_grab (img : Frames.Image) (e : Effects) : Effects :=
  MkEffects (stdout e) (grabs e ++ [img]) (saved e) (requests e) (workbooks e).

Definition record_save (f : string) (img : Frames.Image) (e : Effects)
  : Effects :=
  MkEffects (stdout e) (grabs e) (saved e ++ [(f, img)]) (requests e)
    (workbooks e).

Definition record_request (model : string) (contents : list Part)
  (e : Effects) : Effects :=
  MkEffects (stdout e) (grabs e) (saved e) (requests e ++ [(model, contents)])
    (workbooks e).

Definition record_workbook (f : string) (book : Workbook)
  (e : Effects) : Effects :=
  MkEffects (stdout e) (grabs e) (saved e) (requests e)
    (workbooks e ++ [(f, book)]).

(** [str(n)] for a natural number, and [os.path.join]. *)
Definition str_nat (n : nat) : string :=
  DecimalString.NilEmpty.string_of_uint (Nat.to_uint n).

Definition path_join (dir file : string) : string :=
  (dir ++ "/" ++ file)%string.

(* ================================================================== *)
(** * The capture loop *)

Module Capture.

Import Frames.

Local Open Scope string_scope.

(** (left, top, width, height) of the list area *)
Definition GAME_WINDOW_REGION : nat * nat * nat * nat := (150, 300, 750, 500).
Definition MAX_CAPTURES : nat := 1000.
Definition ANALYSIS_FOLDER : string := "analysis".

(** The variables the loop reads and writes.  [iterations] is not a
    variable of the script: it counts the loop bodies entered. *)
Record Locals : Type := MkLocals {
  consecutive_same_captures : nat;
  previous_screenshot : option Image;
  screenshot_files : list string;
  iterations : nat
}.

Definition initial : Locals := MkLocals 0 None [] 0.

Inductive flow : Type := Next | Break.

Definition screenshot_filename (i : nat) : string :=
  path_join ANALYSIS_FOLDER ("guild_screenshot_" ++ str_nat i ++ ".png").

(** The two [except] clauses: both report and leave the loop. *)
Definition on_capture_error (ex : exn) (e : Effects) : Effects :=
  match exn_cls ex with
  | PyAutoGUIException =>
      print ("PyAutoGUI error during capture: " ++ exn_msg ex ++ ". Stopping.") e
  | _ =>
      print ("An error occurred during capture: " ++ exn_msg ex ++ ". Stopping.") e
  end.

(** The comparison with the previous capture. *)
Definition compare_with_previous (current : Image) (l : Locals) (e : Effects)
  : nat * Effects :=
  match previous_screenshot l with
  | Some previous =>
      if array_equal (np_array current) (np_array previous) then
        let c := consecutive_same_captures l + 1 in
        (c, print ("  Identical screenshot detected (" ++ str_nat c ++ "/2).") e)
      else (0, e)
  | None => (consecutive_same_captures l, e)
  end.

(** One pass through the body of [for i in range(MAX_CAPTURES)].  The
    pause of [time.sleep] leaves no trace here. *)
Definition iteration (w : World) (i : nat) (l : Locals) (e : Effects)
  : flow * Locals * Effects :=
  let l := MkLocals (consecutive_same_captures l) (previous_screenshot l)
             (screenshot_files l) (S (iterations l)) in
  if stop_capture_flag w i then
    (Break, l, print "Manual stop detected. Stopping capture." e)
  else
    let e := print ("Taking screenshot " ++ str_nat (i + 1) ++ "...") e in
    match screenshot w i GAME_WINDOW_REGION with
    | inl ex => (Break, l, on_capture_error ex e)
    | inr current_screenshot =>
        let e := record_grab current_screenshot e in
        match save w i (screenshot_filename i) with
        | Some ex => (Break, l, on_capture_error ex e)
        | None =>
            let e := record_save (screenshot_filename i) current_screenshot e in
            let files := (screenshot_files l ++ [screenshot_filename i])%list in
            let '(c, e) := compare_with_previous current_screenshot l e in
            let l := MkLocals c (Some current_screenshot) files (iterations l) in
            if (2 <=? c)%nat then
              (Break, l,
               print "Three consecutive identical captures detected. Stopping capture." e)
            else (Next, l, e)
        end
    end.

(** [for i in indices: ...], with [break]. *)
Fixpoint for_range (w : World) (indices : list nat) (l : Locals) (e : Effects)
  : Locals * Effects :=
  match indices with
  | [] => (l, e)
  | i :: rest =>
      match iteration w i l e with
      | (Break, l', e') => (l', e')
      | (Next, l', e') => for_range w rest l' e'
      end
  end.

Definition capture_loop (w : World) (e : Effects) : Locals * Effects :=
  for_range w (seq 0 MAX_CAPTURES) initial e.

End Capture.

(* ================================================================== *)
(** * The remote extraction *)

Module Gemini.

Local Open Scope string_scope.

Definition dq : string := String "034"%char "".
Definition nl : string := String "010"%char "".

Definition prompt : string :=
  nl ++
  "    Analyze the following screenshots from a game's guild member list." ++ nl ++
  "    For each image, extract the player names and their corresponding points." ++ nl ++
  "    Player names are on the left, and points are numerical values to the right of the name." ++ nl ++
  "    Ignore any text that is not a player name and points pair." ++ nl ++
  "    Return the result as a single JSON object with a key " ++ dq ++ "players" ++ dq ++
  " which is a list of objects." ++ nl ++
  "    Each object in the list should have two keys: " ++ dq ++ "Name" ++ dq ++
  " (string) and " ++ dq ++ "Points" ++ dq ++ " (integer)." ++ nl ++
  "    Example format: {" ++ dq ++ "players" ++ dq ++ ": [{" ++ dq ++ "Name" ++ dq ++ ": " ++
  dq ++ "Player1" ++ dq ++ ", " ++ dq ++ "Points" ++ dq ++ ": 1500}, {" ++ dq ++ "Name" ++ dq ++
  ": " ++ dq ++ "Player2" ++ dq ++ ", " ++ dq ++ "Points" ++ dq ++ ": 1450}]}" ++ nl ++
  "    Do not include players with the same name and points multiple times. Members can have 0 points, with the field left empty." ++ nl ++
  "    ".

Definition MODEL : string := "gemini-2.5-flash".

(** The [for image_path in chunk_paths] loop: a file that cannot be read
    raises, outside the [try]. *)
Fixpoint attach_images (w : World) (paths : list string) (contents : list Part)
  : exn + list Part :=
  match paths with
  | [] => inr contents
  | image_path :: rest =>
      match read_bytes w image_path with
      | inl ex => inl ex
      | inr img2_bytes =>
          attach_images w rest (contents ++ [BytesPart img2_bytes "image/png"])%list
      end
  end.

(** A [dict] as the list of its items, keys distinct. *)
Fixpoint lookup (k : string) (d : list (string * json)) : option json :=
  match d with
  | [] => None
  | (k', v) :: d' => if String.eqb k k' then Some v else lookup k d'
  end.

Fixpoint is_substring (p s : list ascii) : bool :=
  Py.starts_with p s ||
  match s with
  | [] => false
  | _ :: s' => is_substring p s'
  end.

Definition type_name (v : json) : string :=
  match v with
  | JNull => "NoneType"
  | JBool _ => "bool"
  | JInt _ => "int"
  | JFloat _ => "float"
  | JStr _ => "str"
  | JList _ => "list"
  | JDict _ => "dict"
  end.

Definition is_str (k : string) (v : json) : bool :=
  match v with
  | JStr s => String.eqb s k
  | _ => false
  end.

(** [k in data] *)
Definition contains (k : string) (data : json) : exn + bool :=
  match data with
  | JDict d => inr (match lookup k d with Some _ => true | None => false end)
  | JList l => inr (existsb (is_str k) l)
  | JStr s => inr (is_substring (list_ascii_of_string k) (list_ascii_of_string s))
  | _ => inl (Exn TypeError
                ("argument of type '" ++ type_name data ++ "' is not iterable"))
  end.

(** [data[k]] for a string [k] *)
Definition getitem (k : string) (data : json) : exn + json :=
  match data with
  | JDict d =>
      match lookup k d with
      | Some v => inr v
      | None => inl (Exn (OtherException "KeyError") ("'" ++ k ++ "'"))
      end
  | JList _ => inl (Exn TypeError "list indices must be integers or slices, not str")
  | JStr _ => inl (Exn TypeError "string indices must be integers, not 'str'")
  | _ => inl (Exn TypeError ("'" ++ type_name data ++ "' object is not subscriptable"))
  end.

(** [response.text.strip().replace("```json", "").replace("```", "")] *)
Definition clean (t : string) : string :=
  let l := list_ascii_of_string in
  string_of_list_ascii
    (Py.replace (l "```") [] (Py.replace (l "```json") [] (Py.strip (l t)))).

(** The variables the [try] statement shares with its handler and with
    the [return]: [response] is [None] while it is unbound. *)
Record Frame : Type := MkFrame {
  response : option Response;
  all_members : list json
}.

(** The body of the [try]: [Some ex] when it raised [ex]. *)
Definition try_body (w : World) (contents : list Part) (e : Effects)
  : option exn * Frame * Effects :=
  let e := record_request MODEL contents e in
  match generate_content w MODEL contents with
  | inl ex => (Some ex, MkFrame None [], e)
  | inr resp =>
      let fr := MkFrame (Some resp) [] in
      match text resp with
      | None =>
          (Some (Exn AttributeError "'NoneType' object has no attribute 'strip'"),
           fr, e)
      | Some t =>
          let cleaned_response := clean t in
          match json_loads w cleaned_response with
          | inl ex => (Some ex, fr, e)
          | inr data =>
              let warn :=
                print "  Warning: Gemini response did not contain a 'players' list." e in
              match contains "players" data with
              | inl ex => (Some ex, fr, e)
              | inr false => (None, fr, warn)
              | inr true =>
                  match getitem "players" data with
                  | inl ex => (Some ex, fr, e)
                  | inr (JList players) =>
                      (None, MkFrame (Some resp) ([] ++ players)%list,
                       print ("  Extracted " ++ str_nat (List.length players)
                              ++ " members from this batch.") e)
                  | inr _ => (None, fr, warn)
                  end
              end
          end
      end
  end.

Definition str_text (t : option string) : string :=
  match t with
  | Some s => s
  | None => "None"
  end.

(** The [except Exception as e] clause.  Reading the variable [response]
    while it is unbound raises [UnboundLocalError] out of the handler. *)
Definition handler (ex : exn) (fr : Frame) (e : Effects) : option exn * Effects :=
  let e :=
    print ("  An error occurred calling Gemini API or parsing response: "
           ++ exn_msg ex) e in
  match response fr with
  | None =>
      (Some (Exn UnboundLocalError
               "cannot access local variable 'response' where it is not associated with a value"),
       e)
  | Some resp => (None, print ("  Raw response was: " ++ str_text (text resp)) e)
  end.

Definition api_key_of (w : World) : option string :=
  match environ_get w "GEMINI_API_KEY" with
  | Some "" => None
  | k => k
  end.

(** [extract_with_gemini].  The two imports and the construction of the
    client are taken to succeed; [resize_factor] is the parameter the
    script never reads. *)
Definition extract_with_gemini (w : World) (image_paths : list string)
  (resize_factor : float) (e : Effects) : (exn + list json) * Effects :=
  match api_key_of w with
  | None =>
      (inr [],
       print "Error: GEMINI_API_KEY environment variable not set. Please set it to your API key." e)
  | Some api_key =>
      let chunk_paths := image_paths in
      let e := print ("Processing batch of " ++ str_nat (List.length chunk_paths)
                      ++ " images with Gemini...") e in
      match attach_images w chunk_paths [TextPart prompt] with
      | inl ex => (inl ex, e)
      | inr contents =>
          match try_body w contents e with
          | (None, fr, e) => (inr (all_members fr), e)
          | (Some ex, fr, e) =>
              match handler ex fr e with
              | (Some ex', e) => (inl ex', e)
              | (None, e) => (inr (all_members fr), e)
              end
          end
      end
  end.

End Gemini.

(* ================================================================== *)
(** * Aggregation and export *)

Module Aggregation.

(** The columns [drop_duplicates] compares. *)
Definition key (r : MemberRecord) : string * Z := (Name r, Points r).

Definition key_eqb (a b : string * Z) : bool :=
  String.eqb (fst a) (fst b) && Z.eqb (snd a) (snd b).

Definition key_dec (a b : string * Z) : {a = b} + {a <> b}.
Proof. decide equality; [apply Z.eq_dec | apply string_dec]. Defined.

(** A data frame with the columns Name and Points: its rows, each with its
    index label. *)
Definition DataFrame : Type := list (nat * MemberRecord).

(** [pd.DataFrame(records)]: labels 0, 1, 2, ... *)
Definition pd_DataFrame (records : list MemberRecord) : DataFrame :=
  combine (seq 0 (List.length records)) records.

(** [df.duplicated(subset=["Name", "Points"], keep="first")]: a row is
    marked when an earlier row has its key.  [seen] holds the keys of the
    rows already passed. *)
Fixpoint duplicated_from (seen : list (string * Z)) (df : DataFrame)
  : list bool :=
  match df with
  | [] => []
  | (_, r) :: rest =>
      existsb (key_eqb (key r)) seen :: duplicated_from (key r :: seen) rest
  end.

Definition duplicated (df : DataFrame) : list bool := duplicated_from [] df.

(** [df[mask]] *)
Fixpoint select (df : DataFrame) (mask : list bool) : DataFrame :=
  match df, mask with
  | row :: df', true :: mask' => row :: select df' mask'
  | _ :: df', false :: mask' => select df' mask'
  | _, _ => []
  end.

(** [df.drop_duplicates(subset=["Name", "Points"])] *)
Definition drop_duplicates (df : DataFrame) : DataFrame :=
  select df (map negb (duplicated df)).

(** [df.reset_index(drop=True)] *)
Definition reset_index (df : DataFrame) : DataFrame :=
  combine (seq 0 (List.length df)) (map snd df).

(** The columns Name and Points of a frame, row by row, with the exact
    integers the frame holds: what [df.to_excel(..., index=False)] hands
    to the spreadsheet writer.  What the file then holds is the writer's
    answer ([to_excel] of the world): a number cell need not hold a large
    integer exactly. *)
Definition sheet_of (df : DataFrame) : list (string * Z) :=
  map (fun row => key (snd row)) df.

Definition excel_filename : string := path_join "Results" "guild_members.xlsx".

(** The table of the export block for a list of records. *)
Definition unique_members (records : list MemberRecord) : DataFrame :=
  reset_index (drop_duplicates (pd_DataFrame records)).

Definition success_line (rows : nat) : string :=
  String "010"%char "Successfully extracted "
  ++ str_nat rows ++ " unique guild members to " ++ excel_filename.

(** The export block: nothing is written for an empty list.  When the
    writer raises, the exception leaves the block.  The last line of the
    script, which prints the rendering of [df.head()], is left out. *)
Definition export (w : World) (records : list MemberRecord) (e : Effects)
  : option exn * Effects :=
  match records with
  | [] => (None, e)
  | _ :: _ =>
      let df := unique_members records in
      match to_excel w (sheet_of df) with
      | Wrote rows =>
          let e := record_workbook excel_filename (Members rows) e in
          let e := print (success_line (List.length df)) e in
          (None, print "Data preview:" e)
      | Failed ex None => (Some ex, e)
      | Failed ex (Some rows) =>
          (Some ex, record_workbook excel_filename (Members rows) e)
      end
  end.

End Aggregation.

(* ================================================================== *)
(** * The script *)

Module Main.

Import Capture.

Local Open Scope string_scope.

Record Args : Type := MkArgs {
  analyze_only : bool;
  gemini_resize_factor : float;
  screenshot_only : bool
}.

(** How a run ends: it falls off the end of the script, calls [exit()],
    or dies of an uncaught exception. *)
Inductive Outcome : Type :=
| Completed
| Exited
| Raised (ex : exn).

Definition banner : list string :=
  [ "Starting automated guild data extraction...";
    "Ensure the game window is visible and positioned within the GAME_WINDOW_REGION.";
    "You have 5 seconds to switch to the game window.";
    "The script will take screenshots every second. Please scroll manually.";
    "A 'Stop Capture' button will appear. Click it to stop manually.";
    "Capturing will also stop after 3 consecutive identical screenshots.";
    String "010"%char "--- Starting Capture Phase ---" ].

Definition print_banner (e : Effects) : Effects :=
  fold_left (fun e line => print line e) banner e.

Definition finished_line (files : list string) : string :=
  String "010"%char "--- Capture Phase Finished. Collected "
  ++ str_nat (List.length files) ++ " screenshots. ---".

(** The [if not args.analyze_only: ... else: ...] statement: the list
    [screenshot_files] it leaves, or [None] when it calls [exit()]. *)
Definition collect (w : World) (args : Args) (e : Effects)
  : option (list string) * Effects :=
  if negb (analyze_only args) then
    let e := print_banner e in
    let '(l, e) := capture_loop w e in
    let e := print (finished_line (screenshot_files l)) e in
    if screenshot_only args then
      (None, print "Screenshot-only mode enabled. Exiting without analysis." e)
    else (Some (screenshot_files l), e)
  else
    let e := print (String "010"%char
                "--- Analyze-Only Mode: Searching for existing screenshots ---") e in
    let files := glob_screenshots w in
    match files with
    | [] =>
        (Some files,
         print ("No 'guild_screenshot_*.png' files found in the '"
                ++ ANALYSIS_FOLDER ++ "' directory. Exiting.") e)
    | _ :: _ =>
        (Some files,
         print ("Found " ++ str_nat (List.length files) ++ " files to analyze.") e)
    end.

(** The analysis phase: [all_guild_members_data] after it. *)
Definition analysis (w : World) (args : Args) (screenshot_files : list string)
  (e : Effects) : (exn + list json) * Effects :=
  match screenshot_files with
  | [] => (inr [], e)
  | _ :: _ =>
      let e := print (String "010"%char "--- Starting Analysis Phase ---") e in
      Gemini.extract_with_gemini w screenshot_files (gemini_resize_factor args) e
  end.

(** A row of the remote answer as a member record. *)
Definition as_member (v : json) : option MemberRecord :=
  match v with
  | JDict [(k1, JStr n); (k2, JInt p)] =>
      if String.eqb k1 "Name" && String.eqb k2 "Points" then Some (Member n p)
      else None
  | _ => None
  end.

Fixpoint as_members (l : list json) : option (list MemberRecord) :=
  match l with
  | [] => Some []
  | v :: l' =>
      match as_member v, as_members l' with
      | Some r, Some rs => Some (r :: rs)
      | _, _ => None
      end
  end.

(** The export block on [all_guild_members_data].  Rows that are all
    {Name: str, Points: int} objects go through the frame modelled in
    [Aggregation]; for rows of another shape the table pandas makes of
    them, or the exception it raises, is the world's answer, and the
    block goes on as in the other case. *)
Definition export_data (w : World) (data : list json) (e : Effects)
  : Outcome * Effects :=
  match data with
  | [] => (Completed, e)
  | _ :: _ =>
      match as_members data with
      | Some records =>
          match Aggregation.export w records e with
          | (Some ex, e) => (Raised ex, e)
          | (None, e) => (Completed, e)
          end
      | None =>
          match pandas_export w data with
          | Wrote rows =>
              let e := record_workbook Aggregation.excel_filename
                         (OtherRows rows) e in
              let e := print (Aggregation.success_line (List.length rows)) e in
              (Completed, print "Data preview:" e)
          | Failed ex None => (Raised ex, e)
          | Failed ex (Some rows) =>
              (Raised ex,
               record_workbook Aggregation.excel_filename (OtherRows rows) e)
          end
      end
  end.

(** The part of the script after the capture phase. *)
Definition analyse_and_export (w : World) (args : Args)
  (screenshot_files : list string) (e : Effects) : Outcome * Effects :=
  match analysis w args screenshot_files e with
  | (inl ex, e) => (Raised ex, e)
  | (inr all_guild_members_data, e) => export_data w all_guild_members_data e
  end.

Definition main (w : World) (args : Args) (e : Effects) : Outcome * Effects :=
  if analyze_only args && screenshot_only args then
    (Exited,
     print "Error: --analyze-only and --screenshot-only cannot be used together." e)
  else
    match collect w args e with
    | (None, e) => (Exited, e)
    | (Some screenshot_files, e) => analyse_and_export w args screenshot_files e
    end.

End Main.

(* ================================================================== *)
(** * Predicates the statements use *)

Module Spec.

Import Py.

(** The line holds a run of 3 to 5 decimal digits. *)
Definition has_digit_run (line : list ascii) : Prop :=
  exists pre run post,
    line = pre ++ run ++ post /\
    Forall (fun c => isdigit c = true) run /\
    3 <= List.length run <= 5.

Definition no_edge_space (cs : list ascii) : Prop :=
  match cs with
  | [] => True
  | c :: _ => isspace c = false
  end.

(** Letters, digits, underscores and blanks only; neither the first nor
    the last character is whitespace. *)
Definition clean_name (n : string) : Prop :=
  let cs := list_ascii_of_string n in
  Forall (fun c => LocalParse.clean_class c = true) cs /\
  no_edge_space cs /\ no_edge_space (rev cs).

(** What one repetition item may consume. *)
Definition piece_ok (it : Re.item) (g : list ascii) : Prop :=
  Forall (fun c => Re.cls it c = true) g /\
  Re.rmin it <= List.length g /\
  match Re.rmax it with
  | Some m => List.length g <= m
  | None => True
  end.

(** The capturing items' pieces. *)
Fixpoint captured (items : list Re.item) (pieces : list (list ascii))
  : list (list ascii) :=
  match items, pieces with
  | it :: items', g :: pieces' =>
      if Re.capturing it then g :: captured items' pieces'
      else captured items' pieces'
  | _, _ => []
  end.

(** Two frames of one size whose pixels agree everywhere. *)
Definition pixel_identical (a b : Frames.Image) : Prop :=
  Frames.width a = Frames.width b /\
  Frames.height a = Frames.height b /\
  forall x y, x < Frames.width a -> y < Frames.height a ->
    Frames.getpixel a x y = Frames.getpixel b x y.

(** The loop is about to enter iteration [i] with variables [l], having
    had effects [e]: no earlier iteration left the loop. *)
Inductive reaches (w : World) (e0 : Effects)
  : nat -> Capture.Locals -> Effects -> Prop :=
| reaches_start : reaches w e0 0 Capture.initial e0
| reaches_next i l e l' e' :
    reaches w e0 i l e ->
    Capture.iteration w i l e = (Capture.Next, l', e') ->
    reaches w e0 (S i) l' e'.

(** Iteration [i] meets a capture-backend error [ex]: the grab raises, or
    writing the grabbed frame does. *)
Definition capture_raises (w : World) (i : nat) (ex : exn) : Prop :=
  stop_capture_flag w i = false /\
  (screenshot w i Capture.GAME_WINDOW_REGION = inl ex \/
   exists img, screenshot w i Capture.GAME_WINDOW_REGION = inr img /\
               save w i (Capture.screenshot_filename i) = Some ex).

(** The duplicate check of the loop, on two frames. *)
Definition same (current previous : Frames.Image) : bool :=
  Frames.array_equal (Frames.np_array current) (Frames.np_array previous).

(** No three successive frames of [caps] pass the duplicate check. *)
Definition no_triple (caps : list Frames.Image) : Prop :=
  forall pre a b c post,
    caps = pre ++ a :: b :: c :: post ->
    same b a = true -> same c b = true -> False.

(** A triple of successive duplicates can only be the last three frames. *)
Definition triple_ends (caps : list Frames.Image) : Prop :=
  forall pre a b c post,
    caps = pre ++ a :: b :: c :: post ->
    same b a = true -> same c b = true -> post = [].

(** The state at the head of the loop, [caps] being the frames grabbed so
    far. *)
Definition head_inv (caps : list Frames.Image) (l : Capture.Locals) : Prop :=
  Capture.previous_screenshot l = last (map Some caps) None /\
  Capture.consecutive_same_captures l < 2 /\
  (forall front a b, caps = front ++ [a; b] -> same b a = true ->
     1 <= Capture.consecutive_same_captures l) /\
  no_triple caps /\
  List.length caps <= Capture.iterations l.



(** The response is not valid JSON, or is a JSON object without a "players"
    list. *)
Definition malformed (w : World) (t : string) : Prop :=
  (exists ex, json_loads w (Gemini.clean t) = inl ex) \/
  (exists d, json_loads w (Gemini.clean t) = inr (JDict d) /\
             forall l, Gemini.lookup "players" d <> Some (JList l)).

End Spec.

(* ================================================================== *)
(** * Sample worlds *)

Module Samples.

Local Open Scope string_scope.

Definition frame (n : N) : Frames.Image := Frames.MkImage 1 1 [[(n, 0%N, 0%N)]].

Definition decode_error : exn :=
  Exn (OtherException "JSONDecodeError") "Expecting value: line 1 column 1 (char 0)".

(** The double nearest to an integer, ties to even: the integer itself up
    to 2^53 in magnitude. *)
Definition round_to_double (p : Z) : Z :=
  let a := Z.abs p in
  if (a <=? 2 ^ 53)%Z then p
  else
    let e := (Z.log2 a - 52)%Z in
    let q := (a / 2 ^ e)%Z in
    let r := (a mod 2 ^ e)%Z in
    let half := (2 ^ (e - 1))%Z in
    let m := if (r <? half)%Z then q
             else if (half <? r)%Z then (q + 1)%Z
             else if Z.even q then q else (q + 1)%Z in
    (Z.sgn p * (m * 2 ^ e))%Z.

(** A writer whose number cells are doubles. *)
Definition double_writer (sheet : list (string * Z))
  : Written (list (string * Z)) :=
  Wrote (map (fun row => (fst row, round_to_double (snd row))) sheet).

(** A pandas that finds no columns Name and Points in the rows it is
    given, as for rows that are not objects: [drop_duplicates] raises. *)
Definition no_columns (data : list json) : Written (list (list json)) :=
  Failed (Exn (OtherException "KeyError")
            "Index(['Name', 'Points'], dtype='object')") None.

(** The screen changes at every capture, the key is set, every file reads,
    and the model answers with text that is not JSON. *)
Definition scrolling : World :=
  {| stop_capture_flag := fun _ => false;
     screenshot := fun i _ => inr (frame (N.of_nat i));
     save := fun _ _ => None;
     glob_screenshots := ["analysis/guild_screenshot_0.png"];
     environ_get := fun _ => Some "secret";
     read_bytes := fun _ => inr [Init.Byte.x89; Init.Byte.x50; Init.Byte.x4e; Init.Byte.x47];
     generate_content := fun _ _ => inr (MkResponse (Some "not json"));
     json_loads := fun _ => inl decode_error;
     to_excel := double_writer;
     pandas_export := no_columns |}.

(** The screen stands still. *)
Definition still : World :=
  {| stop_capture_flag := stop_capture_flag scrolling;
     screenshot := fun _ _ => inr (frame 7%N);
     save := save scrolling;
     glob_screenshots := glob_screenshots scrolling;
     environ_get := environ_get scrolling;
     read_bytes := read_bytes scrolling;
     generate_content := generate_content scrolling;
     json_loads := json_loads scrolling;
     to_excel := to_excel scrolling;
     pandas_export := pandas_export scrolling |}.

(** The capture backend fails in the third iteration. *)
Definition backend_fails : World :=
  {| stop_capture_flag := stop_capture_flag scrolling;
     screenshot := fun i r =>
       if (i <? 2)%nat then screenshot scrolling i r
       else inl (Exn PyAutoGUIException "screen grab failed");
     save := save scrolling;
     glob_screenshots := glob_screenshots scrolling;
     environ_get := environ_get scrolling;
     read_bytes := read_bytes scrolling;
     generate_content := generate_content scrolling;
     json_loads := json_loads scrolling;
     to_excel := to_excel scrolling;
     pandas_export := pandas_export scrolling |}.

(** The remote request fails. *)
Definition offline : World :=
  {| stop_capture_flag := stop_capture_flag scrolling;
     screenshot := screenshot scrolling;
     save := save scrolling;
     glob_screenshots := glob_screenshots scrolling;
     environ_get := environ_get scrolling;
     read_bytes := read_bytes scrolling;
     generate_content := fun _ _ =>
       inl (Exn (OtherException "ConnectError") "connection refused");
     json_loads := json_loads scrolling;
     to_excel := to_excel scrolling;
     pandas_export := pandas_export scrolling |}.

(** No credential in the environment. *)
Definition no_key : World :=
  {| stop_capture_flag := stop_capture_flag scrolling;
     screenshot := screenshot scrolling;
     save := save scrolling;
     glob_screenshots := glob_screenshots scrolling;
     environ_get := fun _ => None;
     read_bytes := read_bytes scrolling;
     generate_content := generate_content scrolling;
     json_loads := json_loads scrolling;
     to_excel := to_excel scrolling;
     pandas_export := pandas_export scrolling |}.

(** The model answers with a JSON object that has no "players" key. *)
Definition empty_object : World :=
  {| stop_capture_flag := stop_capture_flag scrolling;
     screenshot := screenshot scrolling;
     save := save scrolling;
     glob_screenshots := glob_screenshots scrolling;
     environ_get := environ_get scrolling;
     read_bytes := read_bytes scrolling;
     generate_content := fun _ _ => inr (MkResponse (Some "```json{}```"));
     json_loads := fun s => if String.eqb s "{}" then inr (JDict []) else inl decode_error;
     to_excel := to_excel scrolling;
     pandas_export := pandas_export scrolling |}.

(** 1.0, 0.75 and 0.5 as doubles. *)
Definition one : float := S754_finite false 4503599627370496 (-52).
Definition three_quarters : float := S754_finite false 6755399441055744 (-53).
Definition half : float := S754_finite false 4503599627370496 (-53).

Definition analyze_only_args : Main.Args := Main.MkArgs true one false.
Definition default_args : Main.Args := Main.MkArgs false one false.
Definition screenshot_only_args : Main.Args := Main.MkArgs false one true.

End Samples.

(* ================================================================== *)
(** * Further predicates and worlds *)

Module Runs.

(** The character after a run, if any, is outside the class. *)
Definition stops (p : ascii -> bool) (rest : list ascii) : Prop :=
  match rest with
  | [] => True
  | c :: _ => p c = false
  end.

(** The counter of successive duplicates after frame [x] was compared with
    the previous capture. *)
Definition next_count (x : Frames.Image) (l : Capture.Locals) : nat :=
  match Capture.previous_screenshot l with
  | Some p => if Spec.same x p then Capture.consecutive_same_captures l + 1 else 0
  | None => Capture.consecutive_same_captures l
  end.

(** The variables after an iteration that grabbed and saved frame [x]. *)
Definition advanced (i : nat) (x : Frames.Image) (l : Capture.Locals)
  : Capture.Locals :=
  Capture.MkLocals (next_count x l) (Some x)
    (Capture.screenshot_files l ++ [Capture.screenshot_filename i])
    (S (Capture.iterations l)).

(** The variables after an iteration that left the loop before saving. *)
Definition ticked (l : Capture.Locals) : Capture.Locals :=
  Capture.MkLocals (Capture.consecutive_same_captures l)
    (Capture.previous_screenshot l) (Capture.screenshot_files l)
    (S (Capture.iterations l)).

End Runs.

Module Rows.

Import Aggregation.

(** The keys [drop_duplicates] keeps, read off the keys alone: a key is
    kept unless it was seen before. *)
Fixpoint first_seen (seen ks : list (string * Z)) : list (string * Z) :=
  match ks with
  | [] => []
  | k :: ks' =>
      if existsb (key_eqb k) seen then first_seen (k :: seen) ks'
      else k :: first_seen (k :: seen) ks'
  end.

(** [k] is none of [ks]. *)
Definition fresh (ks : list (string * Z)) (k : string * Z) : bool :=
  negb (existsb (key_eqb k) ks).

End Rows.

Module Scenarios.

Local Open Scope string_scope.

Definition ann : json := JDict [("Name", JStr "Ann"); ("Points", JInt 1500)].
Definition bob : json := JDict [("Name", JStr "Bob"); ("Points", JInt 900)].

(** The JSON text of an answer with three rows, and the answer as the
    model sends it, fenced. *)
Definition players_json : string :=
  "{" ++ Gemini.dq ++ "players" ++ Gemini.dq ++ ": [ann, bob, ann]}".

Definition fenced_answer : string :=
  "```json" ++ Gemini.nl ++ players_json ++ Gemini.nl ++ "```" ++ Gemini.nl.

(** The model answers with three rows, two of them equal. *)
Definition answering : World :=
  {| stop_capture_flag := stop_capture_flag Samples.scrolling;
     screenshot := screenshot Samples.scrolling;
     save := save Samples.scrolling;
     glob_screenshots := glob_screenshots Samples.scrolling;
     environ_get := environ_get Samples.scrolling;
     read_bytes := read_bytes Samples.scrolling;
     generate_content := fun _ _ => inr (MkResponse (Some fenced_answer));
     json_loads := fun s =>
       if String.eqb s (Gemini.nl ++ players_json ++ Gemini.nl)
       then inr (JDict [("players", JList [ann; bob; ann])])
       else inl Samples.decode_error;
     to_excel := to_excel Samples.scrolling;
     pandas_export := pandas_export Samples.scrolling |}.

(** The user presses the stop button before the third capture. *)
Definition stopped : World :=
  {| stop_capture_flag := fun i => (2 <=? i)%nat;
     screenshot := screenshot Samples.scrolling;
     save := save Samples.scrolling;
     glob_screenshots := glob_screenshots Samples.scrolling;
     environ_get := environ_get Samples.scrolling;
     read_bytes := read_bytes Samples.scrolling;
     generate_content := generate_content Samples.scrolling;
     json_loads := json_loads Samples.scrolling;
     to_excel := to_excel Samples.scrolling;
     pandas_export := pandas_export Samples.scrolling |}.

(** The second image file cannot be read. *)
Definition unreadable : World :=
  {| stop_capture_flag := stop_capture_flag Samples.scrolling;
     screenshot := screenshot Samples.scrolling;
     save := save Samples.scrolling;
     glob_screenshots := ["a.png"; "b.png"];
     environ_get := environ_get Samples.scrolling;
     read_bytes := fun p =>
       if String.eqb p "b.png"
       then inl (Exn (OtherException "FileNotFoundError")
                   "[Errno 2] No such file or directory: 'b.png'")
       else read_bytes Samples.scrolling p;
     generate_content := generate_content Samples.scrolling;
     json_loads := json_loads Samples.scrolling;
     to_excel := to_excel Samples.scrolling;
     pandas_export := pandas_export Samples.scrolling |}.

(** The key is present but empty. *)
Definition empty_key : World :=
  {| stop_capture_flag := stop_capture_flag Samples.scrolling;
     screenshot := screenshot Samples.scrolling;
     save := save Samples.scrolling;
     glob_screenshots := glob_screenshots Samples.scrolling;
     environ_get := fun _ => Some "";
     read_bytes := read_bytes Samples.scrolling;
     generate_content := generate_content Samples.scrolling;
     json_loads := json_loads Samples.scrolling;
     to_excel := to_excel Samples.scrolling;
     pandas_export := pandas_export Samples.scrolling |}.

(** The analysis folder holds no screenshot. *)
Definition no_files : World :=
  {| stop_capture_flag := stop_capture_flag Samples.scrolling;
     screenshot := screenshot Samples.scrolling;
     save := save Samples.scrolling;
     glob_screenshots := [];
     environ_get := environ_get Samples.scrolling;
     read_bytes := read_bytes Samples.scrolling;
     generate_content := generate_content Samples.scrolling;
     json_loads := json_loads Samples.scrolling;
     to_excel := to_excel Samples.scrolling;
     pandas_export := pandas_export Samples.scrolling |}.

End Scenarios.

(* ================================================================== *)
(** * Facts about the string primitives *)

Unset Implicit Arguments.

Section StringFacts.

Import Py.

Lemma lstrip_split (s : list ascii) :
  exists pre, s = pre ++ lstrip s /\ Forall (fun c => isspace c = true) pre.
Proof.
  induction s as [|c s IH]; simpl.
  - exists []. split; [reflexivity | constructor].
  - destruct (isspace c) eqn:Hc.
    + destruct IH as [pre [H1 H2]].
      exists (c :: pre). split.
      * simpl. now rewrite <- H1.
      * now constructor.
    + exists []. split; [reflexivity | constructor].
Qed.

Lemma lstrip_no_edge (s : list ascii) : Spec.no_edge_space (lstrip s).
Proof.
  induction s as [|c s IH]; simpl; [exact I|].
  destruct (isspace c) eqn:Hc; [exact IH | exact Hc].
Qed.

Lemma rstrip_split (s : list ascii) :
  exists post, s = rstrip s ++ post /\ Forall (fun c => isspace c = true) post.
Proof.
  unfold rstrip.
  destruct (lstrip_split (rev s)) as [pre [H1 H2]].
  exists (rev pre). split.
  - rewrite <- rev_app_distr, <- H1. now rewrite rev_involutive.
  - now apply Forall_rev.
Qed.

Lemma rstrip_no_edge_rev (s : list ascii) : Spec.no_edge_space (rev (rstrip s)).
Proof.
  unfold rstrip. rewrite rev_involutive. apply lstrip_no_edge.
Qed.

Lemma strip_split (s : list ascii) :
  exists pre post, s = pre ++ strip s ++ post.
Proof.
  unfold strip.
  destruct (lstrip_split s) as [pre [H1 _]].
  destruct (rstrip_split (lstrip s)) as [post [H2 _]].
  exists pre, post. now rewrite <- H2.
Qed.

Lemma strip_no_edge (s : list ascii) :
  Spec.no_edge_space (strip s) /\ Spec.no_edge_space (rev (strip s)).
Proof.
  split; [|apply rstrip_no_edge_rev].
  unfold strip.
  destruct (rstrip_split (lstrip s)) as [post [H _]].
  pose proof (lstrip_no_edge s) as Hl.
  destruct (rstrip (lstrip s)) as [|c r]; [exact I|].
  rewrite H in Hl. exact Hl.
Qed.

Lemma strip_Forall (P : ascii -> Prop) (s : list ascii) :
  Forall P s -> Forall P (strip s).
Proof.
  intros H. destruct (strip_split s) as [pre [post E]].
  rewrite E in H.
  apply Forall_app in H as [_ H]. now apply Forall_app in H as [H _].
Qed.

Lemma strip_length (s : list ascii) : List.length (strip s) <= List.length s.
Proof.
  destruct (strip_split s) as [pre [post E]].
  rewrite E at 2. rewrite !length_app. lia.
Qed.

Lemma digit_value_bound (c : ascii) :
  isdigit c = true -> (0 <= digit_value c <= 9)%Z.
Proof.
  unfold isdigit, between, digit_value. intros H.
  apply andb_true_iff in H as [H1 H2].
  apply Nat.leb_le in H1, H2. lia.
Qed.

Lemma int_from_bound (s : list ascii) :
  Forall (fun c => isdigit c = true) s ->
  forall acc : Z, (0 <= acc)%Z ->
  (0 <= fold_left (fun a c => 10 * a + digit_value c) s acc
     <= (acc + 1) * 10 ^ Z.of_nat (List.length s) - 1)%Z.
Proof.
  induction 1 as [|c s Hc _ IH]; intros acc Hacc.
  - simpl. lia.
  - cbn [fold_left List.length].
    pose proof (digit_value_bound c Hc) as Hd.
    specialize (IH (10 * acc + digit_value c)%Z ltac:(lia)).
    rewrite Nat2Z.inj_succ, Z.pow_succ_r by lia.
    assert (0 < 10 ^ Z.of_nat (List.length s))%Z by (apply Z.pow_pos_nonneg; lia).
    nia.
Qed.

Lemma int_bound (s : list ascii) :
  Forall (fun c => isdigit c = true) s ->
  (0 <= int s <= 10 ^ Z.of_nat (List.length s) - 1)%Z.
Proof.
  intros H. pose proof (int_from_bound s H 0%Z ltac:(lia)) as B.
  unfold int. lia.
Qed.

End StringFacts.

(* ================================================================== *)
(** * Facts about the matcher *)

Section MatcherFacts.

Import Py Re.

Lemma backoff_some {A : Type} (k : nat -> option A) (lo : nat) :
  forall n r, backoff n lo k = Some r ->
  exists m, lo <= m <= n /\ k m = Some r.
Proof.
  induction n as [|n IH]; intros r H; simpl in H.
  - destruct (0 <? lo) eqn:Hlo; [discriminate|].
    apply Nat.ltb_ge in Hlo.
    destruct (k 0) eqn:Hk; [|discriminate].
    exists 0. split; [lia | congruence].
  - destruct (S n <? lo) eqn:Hlo; [discriminate|].
    apply Nat.ltb_ge in Hlo.
    destruct (k (S n)) eqn:Hk.
    + exists (S n). split; [lia | congruence].
    + destruct (IH r H) as [m [Hm Hkm]].
      exists m. split; [lia | exact Hkm].
Qed.

Lemma backoff_none {A : Type} (k : nat -> option A) (lo : nat) :
  forall n, (forall m, lo <= m <= n -> k m = None) -> backoff n lo k = None.
Proof.
  induction n as [|n IH]; intros H; simpl.
  - destruct (0 <? lo) eqn:Hlo; [reflexivity|].
    apply Nat.ltb_ge in Hlo. now rewrite H by lia.
  - destruct (S n <? lo) eqn:Hlo; [reflexivity|].
    apply Nat.ltb_ge in Hlo. rewrite H by lia.
    apply IH. intros m Hm. apply H. lia.
Qed.

Lemma count_prefix_firstn (p : ascii -> bool) :
  forall s bound m, m <= count_prefix p bound s ->
  List.length (firstn m s) = m /\
  Forall (fun c => p c = true) (firstn m s) /\
  match bound with
  | Some b => m <= b
  | None => True
  end.
Proof.
  induction s as [|c s IH]; intros bound m Hm; simpl in Hm.
  - assert (m = 0) by lia. subst. simpl.
    repeat split; [constructor | destruct bound; [lia | exact I]].
  - destruct m as [|m].
    { simpl. repeat split; [constructor | destruct bound; [lia | exact I]]. }
    destruct (p c) eqn:Hc; [|lia].
    destruct bound as [[|b]|]; [lia | |].
    + destruct (IH (Some b) m ltac:(lia)) as [H1 [H2 H3]].
      simpl. repeat split; [now rewrite H1 | now constructor | lia].
    + destruct (IH None m ltac:(lia)) as [H1 [H2 _]].
      simpl. repeat split; [now rewrite H1 | now constructor].
Qed.

(** A match at the head of [s] cuts [s] into one piece per item, each
    within its item's class and bounds, followed by the unread rest. *)
Lemma match_here_pieces :
  forall items s gs, match_here items s = Some gs ->
  exists pieces rest,
    s = List.concat pieces ++ rest /\
    Forall2 Spec.piece_ok items pieces /\
    gs = Spec.captured items pieces.
Proof.
  induction items as [|it items IH]; intros s gs H; simpl in H.
  - injection H as <-. exists [], s. repeat split. constructor.
  - apply backoff_some in H as [m [Hm Hk]].
    destruct (match_here items (skipn m s)) as [gs'|] eqn:Hrest; [|discriminate].
    injection Hk as <-.
    destruct (IH _ _ Hrest) as [pieces [rest [Hs [Hok Hgs]]]].
    destruct (count_prefix_firstn (cls it) s (rmax it) m ltac:(lia))
      as [Hlen [Hall Hmax]].
    exists (firstn m s :: pieces), rest. repeat split.
    + simpl. rewrite <- app_assoc, <- Hs. symmetry. apply firstn_skipn.
    + constructor; [|exact Hok].
      unfold Spec.piece_ok. rewrite Hlen. repeat split; [exact Hall | lia |].
      destruct (rmax it); [lia | exact I].
    + simpl. destruct (capturing it); now rewrite Hgs.
Qed.

Lemma search_pieces :
  forall items s gs, search items s = Some gs ->
  exists pre pieces rest,
    s = pre ++ List.concat pieces ++ rest /\
    Forall2 Spec.piece_ok items pieces /\
    gs = Spec.captured items pieces.
Proof.
  intros items. induction s as [|c s IH]; intros gs H; simpl in H.
  - destruct (match_here items []) eqn:Hm; [|discriminate].
    injection H as <-.
    destruct (match_here_pieces _ _ _ Hm) as [pieces [rest [E [Hok Hgs]]]].
    exists [], pieces, rest. auto.
  - destruct (match_here items (c :: s)) eqn:Hm.
    + injection H as <-.
      destruct (match_here_pieces _ _ _ Hm) as [pieces [rest [E [Hok Hgs]]]].
      exists [], pieces, rest. auto.
    + destruct (IH _ H) as [pre [pieces [rest [E [Hok Hgs]]]]].
      exists (c :: pre), pieces, rest. repeat split; auto.
      simpl. now rewrite <- E.
Qed.

(** What [re.search] with the script's pattern returns: a name group, and
    a points group of 3 to 5 digits that stands in the line. *)
Lemma search_pattern_groups (s : list ascii) (gs : list (list ascii)) :
  search LocalParse.pattern s = Some gs ->
  exists g1 g2 pre post,
    gs = [g1; g2] /\
    s = pre ++ g2 ++ post /\
    Forall (fun c => isdigit c = true) g2 /\
    3 <= List.length g2 <= 5.
Proof.
  intros H.
  destruct (search_pieces _ _ _ H) as [pre [pieces [rest [E [Hok Hgs]]]]].
  unfold LocalParse.pattern in Hok.
  inversion Hok as [|it1 g1 ? ? _ Hok1]; subst; clear Hok.
  inversion Hok1 as [|it2 ws ? ? _ Hok2]; subst; clear Hok1.
  inversion Hok2 as [|it3 g2 ? ? [Hd [Hlo Hhi]] Hok3]; subst; clear Hok2.
  inversion Hok3; subst; clear Hok3.
  simpl in *.
  exists g1, g2, (pre ++ g1 ++ ws), rest.
  repeat split; try assumption; try lia.
  rewrite app_nil_r. now rewrite <- !app_assoc.
Qed.

End MatcherFacts.

(* ================================================================== *)
(** * The local parse *)

Section LocalParseFacts.

Import Py Re LocalParse.

Lemma parse_line_inv (line : list ascii) (r : MemberRecord) :
  parse_line line = Some r ->
  exists g1 g2 pre post,
    strip line = pre ++ g2 ++ post /\
    Forall (fun c => isdigit c = true) g2 /\
    3 <= List.length g2 <= 5 /\
    r = Member (string_of_list_ascii (strip (sub_clean (strip g1))))
          (int (strip g2)).
Proof.
  unfold parse_line. intros H.
  destruct (strip line) as [|c l] eqn:Hl; [discriminate|].
  destruct (search pattern (c :: l)) as [gs|] eqn:Hs; [|discriminate].
  destruct (search_pattern_groups _ _ Hs)
    as [g1 [g2 [pre [post [-> [E [Hd Hlen]]]]]]].
  injection H as <-.
  exists g1, g2, pre, post. auto.
Qed.

Lemma parse_line_sound (line : list ascii) (r : MemberRecord) :
  parse_line line = Some r ->
  (0 <= Points r <= 99999)%Z /\ Spec.clean_name (Name r).
Proof.
  intros H.
  destruct (parse_line_inv _ _ H) as [g1 [g2 [pre [post [_ [Hd [Hlen ->]]]]]]].
  split.
  - simpl.
    pose proof (int_bound (strip g2) (strip_Forall _ _ Hd)) as B.
    pose proof (strip_length g2) as L.
    assert (10 ^ Z.of_nat (List.length (strip g2)) <= 10 ^ 5)%Z
      by (apply Z.pow_le_mono_r; lia).
    lia.
  - unfold Spec.clean_name. simpl.
    rewrite list_ascii_of_string_of_list_ascii.
    split; [|apply strip_no_edge].
    apply strip_Forall. unfold sub_clean.
    apply Forall_forall. intros c Hc. apply filter_In in Hc. tauto.
Qed.

Lemma parse_line_digit_run (line : list ascii) (r : MemberRecord) :
  parse_line line = Some r -> Spec.has_digit_run line.
Proof.
  intros H.
  destruct (parse_line_inv _ _ H) as [g1 [g2 [pre [post [E [Hd [Hlen _]]]]]]].
  destruct (strip_split line) as [pre' [post' E']].
  exists (pre' ++ pre), g2, (post ++ post').
  repeat split; try assumption; try lia.
  rewrite E' at 1. rewrite E. now rewrite <- !app_assoc.
Qed.

(** A line without a run of 3 to 5 digits adds no record. *)
Lemma no_digit_run_no_record (line : list ascii) :
  ~ Spec.has_digit_run line -> parse_line line = None.
Proof.
  intros Hno. destruct (parse_line line) as [r|] eqn:H; [|reflexivity].
  exfalso. apply Hno. exact (parse_line_digit_run _ _ H).
Qed.

Lemma parse_lines_Forall (P : MemberRecord -> Prop) (lines : list (list ascii)) :
  (forall line r, parse_line line = Some r -> P r) ->
  Forall P (parse_lines lines).
Proof.
  intros HP. induction lines as [|line rest IH]; simpl; [constructor|].
  destruct (parse_line line) as [r|] eqn:H; [|exact IH].
  constructor; [exact (HP _ _ H) | exact IH].
Qed.

(** A text none of whose lines holds a run of 3 to 5 digits yields no
    record at all. *)
Lemma no_digit_run_no_records (text : string) :
  Forall (fun line => ~ Spec.has_digit_run line)
    (split newline (list_ascii_of_string text)) ->
  extract_names_and_points text = [].
Proof.
  unfold extract_names_and_points.
  induction 1 as [|line rest Hl _ IH]; simpl; [reflexivity|].
  now rewrite (no_digit_run_no_record _ Hl).
Qed.

(** C2 (the code departs from the claim).  On the single line
    "PlayerOne 1500" the code returns exactly one record, but it is
    {Name: "PlayerOne 1", Points: 500}, not {Name: "PlayerOne",
    Points: 1500}: the greedy name group [[A-Za-z0-9_ -]+] also accepts
    blanks and digits, runs to the end of the line and gives back only the
    three digits that [\d{3,5}] needs. *)
Theorem extract_PlayerOne_1500 :
  extract_names_and_points "PlayerOne 1500" = [Member "PlayerOne 1" 500].
Proof. vm_compute. reflexivity. Qed.

(** C10 as stated fails: a points group of zeros is a match, and its value
    is below 100. *)
Lemma points_below_100 :
  extract_names_and_points "ab 000" = [Member "ab" 0] /\
  ~ (forall r, In r (extract_names_and_points "ab 000") ->
       (100 <= Points r <= 99999)%Z /\ Spec.clean_name (Name r)).
Proof.
  split; [vm_compute; reflexivity|].
  intros H. destruct (H (Member "ab" 0)) as [[Hlo _] _].
  - vm_compute. left. reflexivity.
  - simpl in Hlo. lia.
Qed.

(** C10, amended.  Every record [extract_names_and_points] produces has
    0 <= Points <= 99999, and a Name made of ASCII letters, digits,
    underscores and blanks only, with no whitespace at either end. *)
Theorem extract_names_and_points_records (text : string) :
  Forall (fun r => (0 <= Points r <= 99999)%Z /\ Spec.clean_name (Name r))
    (extract_names_and_points text).
Proof.
  unfold extract_names_and_points.
  apply parse_lines_Forall. exact parse_line_sound.
Qed.

End LocalParseFacts.

(* ================================================================== *)
(** * The duplicate check *)

Section FrameFacts.

Import Frames.

Lemma forallb_eqb_combine (l1 l2 : list N) :
  List.length l1 = List.length l2 ->
  (forallb (fun xy => N.eqb (fst xy) (snd xy)) (combine l1 l2) = true <-> l1 = l2).
Proof.
  revert l2. induction l1 as [|x l1 IH]; intros [|y l2] Hlen;
    simpl in *; try discriminate.
  - tauto.
  - injection Hlen as Hlen. rewrite andb_true_iff, N.eqb_eq, (IH l2 Hlen).
    split; [intros [-> ->]; reflexivity | intros E; injection E; auto].
Qed.

Lemma bands_row_length (r : list Pixel) :
  List.length (flat_map bands r) = 3 * List.length r.
Proof.
  induction r as [|[[x y] z] r IH]; simpl; [reflexivity|]. rewrite IH. lia.
Qed.

Lemma bands_row_inj (r1 r2 : list Pixel) :
  flat_map bands r1 = flat_map bands r2 -> r1 = r2.
Proof.
  revert r2. induction r1 as [|[[x y] z] r1 IH]; intros [|[[x' y'] z'] r2] H;
    simpl in H; try discriminate; [reflexivity|].
  injection H as -> -> -> H. f_equal. now apply IH.
Qed.

Lemma app_same_length {A : Type} (l1 l1' l2 l2' : list A) :
  List.length l1 = List.length l1' ->
  l1 ++ l2 = l1' ++ l2' -> l1 = l1' /\ l2 = l2'.
Proof.
  revert l1'. induction l1 as [|x l1 IH]; intros [|x' l1'] Hlen H;
    simpl in *; try discriminate; [auto|].
  injection Hlen as Hlen. injection H as -> H.
  destruct (IH _ Hlen H) as [-> ->]. auto.
Qed.

Lemma bands_rows_length (w : nat) (rs : list (list Pixel)) :
  Forall (fun r => List.length r = w) rs ->
  List.length (flat_map (flat_map bands) rs) = List.length rs * (3 * w).
Proof.
  induction 1 as [|r rs Hr _ IH]; simpl; [reflexivity|].
  rewrite length_app, bands_row_length, IH, Hr. lia.
Qed.

Lemma bands_rows_inj (w : nat) (rs1 rs2 : list (list Pixel)) :
  Forall (fun r => List.length r = w) rs1 ->
  Forall (fun r => List.length r = w) rs2 ->
  List.length rs1 = List.length rs2 ->
  flat_map (flat_map bands) rs1 = flat_map (flat_map bands) rs2 ->
  rs1 = rs2.
Proof.
  intros H1. revert rs2.
  induction H1 as [|r1 rs1 Hr1 _ IH]; intros rs2 H2 Hlen H;
    destruct H2 as [|r2 rs2 Hr2 H2]; simpl in *; try discriminate;
    [reflexivity|].
  injection Hlen as Hlen.
  apply app_same_length in H as [Hr Hrs].
  - apply bands_row_inj in Hr. subst. f_equal. now apply IH.
  - rewrite !bands_row_length. congruence.
Qed.

Lemma rows_ext (a b : Image) :
  well_formed a -> well_formed b ->
  width a = width b -> height a = height b ->
  (forall x y, x < width a -> y < height a -> getpixel a x y = getpixel b x y) ->
  rows a = rows b.
Proof.
  intros [Ha1 Ha2] [Hb1 Hb2] Hw Hh Hpix.
  apply (nth_ext _ _ [] []); [congruence|].
  intros y Hy.
  assert (Hra : List.length (nth y (rows a) []) = width a).
  { rewrite Forall_forall in Ha2. apply Ha2. now apply nth_In. }
  assert (Hrb : List.length (nth y (rows b) []) = width b).
  { rewrite Forall_forall in Hb2. apply Hb2. apply nth_In. lia. }
  apply (nth_ext _ _ black black); [congruence|].
  intros x Hx. apply (Hpix x y); lia.
Qed.

Lemma array_equal_rows (a b : Image) :
  well_formed a -> well_formed b ->
  width a = width b -> height a = height b ->
  (array_equal (np_array a) (np_array b) = true <-> rows a = rows b).
Proof.
  intros Ha Hb Hw Hh.
  pose proof Ha as [Ha1 Ha2]. pose proof Hb as [Hb1 Hb2].
  unfold array_equal, np_array, shape_eqb. cbn [shape data].
  rewrite Hw, Hh.
  destruct (list_eq_dec Nat.eq_dec _ _) as [_|N]; [|contradiction].
  cbn [negb].
  rewrite forallb_eqb_combine.
  - split; [|now intros ->].
    apply (bands_rows_inj (width a)); try assumption; try congruence.
    now rewrite Hw.
  - rewrite (bands_rows_length (width a)), (bands_rows_length (width b));
      try assumption. congruence.
Qed.

(** [np.array_equal] answers [True] on an image and itself, whatever its
    shape. *)
Lemma array_equal_refl (a : Image) : array_equal (np_array a) (np_array a) = true.
Proof.
  unfold array_equal, shape_eqb.
  destruct (list_eq_dec Nat.eq_dec _ _) as [_|N]; [|contradiction].
  cbn [negb]. induction (data (np_array a)) as [|x l IH]; simpl; [reflexivity|].
  now rewrite N.eqb_refl.
Qed.

(** C6.  Two captures of the same region (well-formed images of one size)
    are reported as duplicates by the [np.array_equal] check exactly when
    every pixel of one equals the pixel of the other at the same place. *)
Theorem array_equal_iff_pixels (a b : Image) :
  well_formed a -> well_formed b ->
  width a = width b -> height a = height b ->
  (array_equal (np_array a) (np_array b) = true <->
   forall x y, x < width a -> y < height a -> getpixel a x y = getpixel b x y).
Proof.
  intros Ha Hb Hw Hh.
  rewrite (array_equal_rows a b Ha Hb Hw Hh). split.
  - intros E x y _ _. unfold getpixel. now rewrite E.
  - now apply rows_ext.
Qed.

Lemma array_equal_iff_pixels_witness :
  let a := MkImage 2 1 [[(1, 2, 3); (4, 5, 6)]]%N in
  let b := MkImage 2 1 [[(1, 2, 3); (4, 5, 7)]]%N in
  (array_equal (np_array a) (np_array a) = true <->
   forall x y, x < 2 -> y < 1 -> getpixel a x y = getpixel a x y) /\
  (array_equal (np_array a) (np_array b) = true <->
   forall x y, x < 2 -> y < 1 -> getpixel a x y = getpixel b x y) /\
  array_equal (np_array a) (np_array b) = false.
Proof.
  intros a b.
  assert (Ha : well_formed a) by (split; [reflexivity | repeat constructor]).
  assert (Hb : well_formed b) by (split; [reflexivity | repeat constructor]).
  split; [|split].
  - exact (array_equal_iff_pixels a a Ha Ha eq_refl eq_refl).
  - exact (array_equal_iff_pixels a b Ha Hb eq_refl eq_refl).
  - reflexivity.
Defined.

End FrameFacts.

(* ================================================================== *)
(** * The capture loop *)

Section CaptureFacts.

Import Frames Capture.

Variable w : World.

Ltac proj :=
  cbn [fst snd iterations consecutive_same_captures previous_screenshot
       screenshot_files grabs saved print record_grab record_save] in *.

Lemma grabs_on_capture_error (ex : exn) (e : Effects) :
  grabs (on_capture_error ex e) = grabs e.
Proof. unfold on_capture_error. destruct (exn_cls ex); reflexivity. Qed.

Lemma saved_on_capture_error (ex : exn) (e : Effects) :
  saved (on_capture_error ex e) = saved e.
Proof. unfold on_capture_error. destruct (exn_cls ex); reflexivity. Qed.

Lemma compare_with_previous_spec (x : Image) (l : Locals) (e : Effects) :
  grabs (snd (compare_with_previous x l e)) = grabs e /\
  fst (compare_with_previous x l e) =
    match previous_screenshot l with
    | Some p => if Spec.same x p then consecutive_same_captures l + 1 else 0
    | None => consecutive_same_captures l
    end.
Proof.
  unfold compare_with_previous, Spec.same.
  destruct (previous_screenshot l) as [p|]; [|auto].
  destruct (array_equal (np_array x) (np_array p)); auto.
Qed.

Lemma snoc_triple {A : Type} (pre post caps : list A) (a b c x : A) :
  pre ++ a :: b :: c :: post = caps ++ [x] ->
  (post = [] /\ c = x /\ caps = pre ++ [a; b]) \/
  (exists post', post = post' ++ [x] /\ caps = pre ++ a :: b :: c :: post').
Proof.
  intros H. destruct post as [|p post0] using rev_ind.
  - left.
    replace (pre ++ [a; b; c]) with ((pre ++ [a; b]) ++ [c]) in H
      by (now rewrite <- app_assoc).
    apply app_inj_tail in H as [H1 H2]. auto.
  - right. clear IHpost0.
    replace (pre ++ a :: b :: c :: post0 ++ [p])
      with ((pre ++ a :: b :: c :: post0) ++ [p]) in H
      by (now rewrite <- app_assoc).
    apply app_inj_tail in H as [H1 H2]. subst. eauto.
Qed.

Lemma no_triple_ends (caps : list Image) :
  Spec.no_triple caps -> Spec.triple_ends caps.
Proof.
  intros H pre a b c post E Hab Hbc. exfalso. exact (H _ _ _ _ _ E Hab Hbc).
Qed.

Lemma no_triple_snoc_ends (caps : list Image) (x : Image) :
  Spec.no_triple caps -> Spec.triple_ends (caps ++ [x]).
Proof.
  intros H pre a b c post E Hab Hbc. symmetry in E.
  apply snoc_triple in E as [[-> _]|[post' [_ E]]]; [reflexivity|].
  exfalso. exact (H _ _ _ _ _ E Hab Hbc).
Qed.

(** What one iteration does to the frames grabbed, started from the head
    invariant: it either goes on with the invariant restored, or leaves
    the loop with every triple of duplicates at the very end. *)
Lemma iteration_inv (P : Image -> Prop) (base caps : list Image)
  (i : nat) (l : Locals) (e : Effects) :
  (forall j img, screenshot w j GAME_WINDOW_REGION = inr img -> P img) ->
  grabs e = base ++ caps -> Spec.head_inv caps l -> Forall P caps ->
  exists caps',
    grabs (snd (iteration w i l e)) = base ++ caps' /\
    Forall P caps' /\
    iterations (snd (fst (iteration w i l e))) = S (iterations l) /\
    List.length caps' <= S (iterations l) /\
    match fst (fst (iteration w i l e)) with
    | Next => Spec.head_inv caps' (snd (fst (iteration w i l e)))
    | Break => Spec.triple_ends caps'
    end.
Proof.
  intros HP Hg (Hprev & Hlt & Hpair & Hno & Hlen) Hall.
  unfold iteration.
  destruct (stop_capture_flag w i).
  { exists caps. proj. repeat split; auto using no_triple_ends. }
  destruct (screenshot w i GAME_WINDOW_REGION) as [ex|x] eqn:Hshot.
  { exists caps. proj. rewrite grabs_on_capture_error. proj.
    repeat split; auto using no_triple_ends. }
  assert (Hall' : Forall P (caps ++ [x])).
  { apply Forall_app. split; [exact Hall|]. constructor; [eauto | constructor]. }
  assert (Hlen' : List.length (caps ++ [x]) <= S (iterations l)).
  { rewrite length_app. simpl. lia. }
  destruct (save w i (screenshot_filename i)) as [ex|].
  { exists (caps ++ [x]). proj. rewrite grabs_on_capture_error. proj.
    rewrite Hg, <- app_assoc.
    repeat split; auto using no_triple_snoc_ends. }
  match goal with
  | |- context [compare_with_previous ?a ?b ?c] =>
      pose proof (compare_with_previous_spec a b c) as [Hcg Hcc];
      destruct (compare_with_previous a b c) as [c0 e2]
  end.
  proj.
  exists (caps ++ [x]).
  assert (Hg2 : grabs e2 = base ++ caps ++ [x]).
  { rewrite Hcg, Hg, <- app_assoc. reflexivity. }
  destruct (2 <=? c0) eqn:Hc0; proj.
  { repeat split; auto using no_triple_snoc_ends. }
  apply Nat.leb_gt in Hc0.
  repeat split; proj; auto.
  - rewrite map_app. cbn [map]. now rewrite last_last.
  - intros front a b E Hab.
    replace (front ++ [a; b]) with ((front ++ [a]) ++ [b]) in E
      by (now rewrite <- app_assoc).
    apply app_inj_tail in E as [E ->]. subst caps.
    rewrite map_app in Hprev. cbn [map] in Hprev. rewrite last_last in Hprev. rewrite Hprev, Hab in Hcc. lia.
  - intros pre a b c post E Hab Hbc. symmetry in E.
    apply snoc_triple in E as [[_ [-> E]]|[post' [_ E]]].
    + subst caps.
      replace (pre ++ [a; b]) with ((pre ++ [a]) ++ [b]) in Hprev
        by (now rewrite <- app_assoc).
      rewrite map_app in Hprev. cbn [map] in Hprev. rewrite last_last in Hprev.
      specialize (Hpair pre a b eq_refl Hab).
      rewrite Hprev, Hbc in Hcc. lia.
    + exact (Hno _ _ _ _ _ E Hab Hbc).
Qed.

Lemma for_range_inv (P : Image -> Prop) (base : list Image) :
  (forall j img, screenshot w j GAME_WINDOW_REGION = inr img -> P img) ->
  forall indices caps l e,
  grabs e = base ++ caps -> Spec.head_inv caps l -> Forall P caps ->
  exists caps',
    grabs (snd (for_range w indices l e)) = base ++ caps' /\
    Forall P caps' /\
    iterations (fst (for_range w indices l e))
      <= iterations l + List.length indices /\
    List.length caps' <= iterations (fst (for_range w indices l e)) /\
    Spec.triple_ends caps'.
Proof.
  intros HP. induction indices as [|i rest IH]; intros caps l e Hg Hinv Hall.
  - exists caps. cbn. destruct Hinv as (_ & _ & _ & Hno & Hlen).
    repeat split; auto using no_triple_ends. lia.
  - destruct (iteration_inv P base caps i l e HP Hg Hinv Hall)
      as [caps' (Hg' & Hall' & Hit & Hlen' & Hflow)].
    cbn [for_range].
    destruct (iteration w i l e) as [[[|] l'] e']; cbn in *.
    + destruct (IH caps' l' e' Hg' Hflow Hall')
        as [caps'' (H1 & H2 & H3 & H4 & H5)].
      exists caps''. repeat split; auto. lia.
    + exists caps'. repeat split; auto; lia.
Qed.

Lemma initial_head_inv : Spec.head_inv [] initial.
Proof.
  repeat split; cbn; try lia.
  - intros front a b E. destruct front; discriminate.
  - intros pre a b c post E. destruct pre; discriminate.
Qed.

End CaptureFacts.

Section CaptureClaims.

Import Frames Capture.

Lemma pixel_identical_same (a b : Image) :
  well_formed a -> well_formed b -> Spec.pixel_identical a b ->
  Spec.same b a = true.
Proof.
  intros Ha Hb (Hw & Hh & Hpix). unfold Spec.same.
  apply (array_equal_rows b a Hb Ha); [congruence | congruence |].
  symmetry. now apply rows_ext.
Qed.

(** C5.  Whatever the backend and the user do, the loop runs at most
    MAX_CAPTURES iterations, and once three successive captures are
    pixel-identical no further capture is taken: in the list of frames the
    loop grabbed, such a triple can only be the last three. *)
Theorem capture_loop_terminates (w : World) (e : Effects) :
  (forall i img, screenshot w i GAME_WINDOW_REGION = inr img -> well_formed img) ->
  exists caps,
    grabs (snd (capture_loop w e)) = grabs e ++ caps /\
    iterations (fst (capture_loop w e)) <= MAX_CAPTURES /\
    List.length caps <= iterations (fst (capture_loop w e)) /\
    forall pre a b c post,
      caps = pre ++ a :: b :: c :: post ->
      Spec.pixel_identical a b -> Spec.pixel_identical b c ->
      post = [].
Proof.
  intros Hwf. unfold capture_loop.
  destruct (for_range_inv w well_formed (grabs e) Hwf (seq 0 MAX_CAPTURES)
              [] initial e (eq_sym (app_nil_r _)) initial_head_inv
              (Forall_nil _))
    as [caps (Hg & Hall & Hit & Hlen & Hends)].
  exists caps. rewrite length_seq in Hit. cbn [iterations initial] in Hit.
  repeat split; auto.
  intros pre a b c post E Hab Hbc.
  assert (Ha : well_formed a /\ well_formed b /\ well_formed c).
  { rewrite E in Hall. apply Forall_app in Hall as [_ Hall].
    inversion Hall as [|? ? Ha Hall1]; subst.
    inversion Hall1 as [|? ? Hb Hall2]; subst.
    inversion Hall2; subst. auto. }
  destruct Ha as (Ha & Hb & Hc).
  apply (Hends pre a b c post E); now apply pixel_identical_same.
Qed.

Lemma capture_loop_terminates_witness :
  exists caps,
    grabs (snd (capture_loop Samples.still no_effects)) = [] ++ caps /\
    iterations (fst (capture_loop Samples.still no_effects)) <= MAX_CAPTURES /\
    List.length caps <= iterations (fst (capture_loop Samples.still no_effects)) /\
    forall pre a b c post,
      caps = pre ++ a :: b :: c :: post ->
      Spec.pixel_identical a b -> Spec.pixel_identical b c ->
      post = [].
Proof.
  apply (capture_loop_terminates Samples.still no_effects).
  intros i img H. injection H as <-.
  split; [reflexivity | repeat constructor].
Defined.

(** On a screen that stands still the loop takes exactly three captures. *)
Example still_screen_three_captures :
  grabs (snd (capture_loop Samples.still no_effects))
    = [Samples.frame 7; Samples.frame 7; Samples.frame 7] /\
  iterations (fst (capture_loop Samples.still no_effects)) = 3.
Proof. vm_compute. split; reflexivity. Qed.

Lemma iteration_next (w : World) (i : nat) (l l' : Locals) (e e' : Effects) :
  iteration w i l e = (Next, l', e') ->
  screenshot_files l' = screenshot_files l ++ [screenshot_filename i] /\
  iterations l' = S (iterations l).
Proof.
  unfold iteration.
  destruct (stop_capture_flag w i); [discriminate|].
  destruct (screenshot w i GAME_WINDOW_REGION); [discriminate|].
  destruct (save w i (screenshot_filename i)); [discriminate|].
  destruct (compare_with_previous _ _ _) as [c e2].
  destruct (2 <=? c); [discriminate|].
  intros H. injection H as <- _. auto.
Qed.

Lemma reaches_files (w : World) (e0 : Effects) (i : nat) (l : Locals)
  (e : Effects) :
  Spec.reaches w e0 i l e ->
  screenshot_files l = map screenshot_filename (seq 0 i) /\ iterations l = i.
Proof.
  induction 1 as [|i l e l' e' _ [IHf IHi] Hit]; [auto|].
  apply iteration_next in Hit as [Hf Hi].
  rewrite Hf, Hi, IHf, IHi, seq_S, map_app. auto.
Qed.

Lemma reaches_for_range (w : World) (e0 : Effects) (i : nat) (l : Locals)
  (e : Effects) :
  Spec.reaches w e0 i l e ->
  forall n, for_range w (seq 0 (i + n)) initial e0 = for_range w (seq i n) l e.
Proof.
  induction 1 as [|i l e l' e' _ IH Hit]; intros n; [reflexivity|].
  replace (S i + n) with (i + S n) by lia.
  rewrite IH. cbn [seq for_range]. now rewrite Hit.
Qed.

Lemma iteration_raises (w : World) (i : nat) (l : Locals) (e : Effects)
  (ex : exn) :
  Spec.capture_raises w i ex ->
  exists e',
    iteration w i l e =
      (Break,
       MkLocals (consecutive_same_captures l) (previous_screenshot l)
         (screenshot_files l) (S (iterations l)),
       e') /\
    saved e' = saved e.
Proof.
  intros [Hstop [Hshot|[img [Hshot Hsave]]]]; unfold iteration;
    rewrite Hstop, Hshot; [|rewrite Hsave]; eexists; split;
    try reflexivity; now rewrite saved_on_capture_error.
Qed.

(** The loop, when iteration [i] is reached and meets a backend error. *)
Lemma capture_loop_error (w : World) (e0 : Effects) (i : nat) (l : Locals)
  (e : Effects) (ex : exn) :
  i < MAX_CAPTURES ->
  Spec.reaches w e0 i l e ->
  Spec.capture_raises w i ex ->
  iterations (fst (capture_loop w e0)) = S i /\
  screenshot_files (fst (capture_loop w e0)) = screenshot_files l /\
  screenshot_files l = map screenshot_filename (seq 0 i) /\
  saved (snd (capture_loop w e0)) = saved e.
Proof.
  intros Hi Hr Hex. unfold capture_loop.
  replace MAX_CAPTURES with (i + S (MAX_CAPTURES - S i)) by lia.
  rewrite (reaches_for_range _ _ _ _ _ Hr). cbn [seq for_range].
  destruct (iteration_raises w i l e ex Hex) as [e' [-> Hs]].
  destruct (reaches_files _ _ _ _ _ Hr) as [Hf Hit].
  cbn [fst snd iterations screenshot_files]. rewrite Hit. auto.
Qed.

End CaptureClaims.

(* ================================================================== *)
(** * The remote extraction *)

Section GeminiFacts.

Import Gemini.

Variable w : World.

Ltac eff := cbn [fst snd stdout grabs saved requests workbooks print
                 record_request all_members response].

Lemma attach_images_ok (paths : list string) (datas : list (list Init.Byte.byte)) :
  Forall2 (fun p d => read_bytes w p = inr d) paths datas ->
  forall contents,
  attach_images w paths contents
    = inr (contents ++ map (fun d => BytesPart d "image/png") datas).
Proof.
  induction 1 as [|p d paths datas Hp _ IH]; intros contents; cbn.
  - now rewrite app_nil_r.
  - rewrite Hp, IH, <- app_assoc. reflexivity.
Qed.

Lemma try_body_effects (contents : list Part) (e : Effects) :
  requests (snd (try_body w contents e)) = requests e ++ [(MODEL, contents)] /\
  workbooks (snd (try_body w contents e)) = workbooks e.
Proof.
  unfold try_body.
  repeat match goal with
         | |- context [match ?x with _ => _ end] => destruct x
         end; eff; auto.
Qed.

Lemma handler_effects (ex : exn) (fr : Frame) (e : Effects) :
  requests (snd (handler ex fr e)) = requests e /\
  workbooks (snd (handler ex fr e)) = workbooks e.
Proof. unfold handler. destruct (response fr); eff; auto. Qed.

(** The request raises: nothing is bound to [response], nothing was
    extracted. *)
Lemma try_body_request_raises (contents : list Part) (e : Effects) (ex : exn) :
  generate_content w MODEL contents = inl ex ->
  try_body w contents e
    = (Some ex, MkFrame None [], record_request MODEL contents e).
Proof. unfold try_body. now intros ->. Qed.

(** A response arrived: whatever happens next, [response] is bound, and
    an exception leaves [all_members] empty. *)
Lemma try_body_response (contents : list Part) (e : Effects) (resp : Response) :
  generate_content w MODEL contents = inr resp ->
  response (snd (fst (try_body w contents e))) = Some resp /\
  (forall ex, fst (fst (try_body w contents e)) = Some ex ->
     all_members (snd (fst (try_body w contents e))) = []).
Proof.
  unfold try_body. intros ->.
  repeat match goal with
         | |- context [match ?x with _ => _ end] => destruct x
         end; eff; split; auto; discriminate.
Qed.

(** A malformed answer: the body of the [try] ends, normally or not, with
    no member extracted and [response] bound. *)
Lemma try_body_malformed (contents : list Part) (e : Effects)
  (resp : Response) (t : string) :
  generate_content w MODEL contents = inr resp ->
  text resp = Some t ->
  Spec.malformed w t ->
  exists r e',
    try_body w contents e = (r, MkFrame (Some resp) [], e') /\
    workbooks e' = workbooks e.
Proof.
  unfold try_body. intros -> -> [[ex ->]|[d [-> Hd]]].
  - eexists _, _. split; reflexivity.
  - cbn [contains getitem].
    destruct (lookup "players" d) as [v|] eqn:Hv.
    + destruct v; try (eexists _, _; split; reflexivity).
      exfalso. exact (Hd _ eq_refl).
    + eexists _, _. split; reflexivity.
Qed.

Lemma extract_with_gemini_workbooks (paths : list string)
  (rf : float) (e : Effects) :
  workbooks (snd (extract_with_gemini w paths rf e)) = workbooks e.
Proof.
  unfold extract_with_gemini.
  destruct (api_key_of w); [|reflexivity].
  destruct (attach_images w paths [TextPart prompt]); [reflexivity|].
  match goal with
  | |- context [try_body w ?c ?e0] =>
      pose proof (try_body_effects c e0) as [_ Hw];
      destruct (try_body w c e0) as [[[ex|] fr] e1]
  end; cbn [snd workbooks print] in *; [|exact Hw].
  pose proof (handler_effects ex fr e1) as [_ Hh].
  destruct (handler ex fr e1) as [[ex'|] e2]; cbn [snd workbooks print] in *;
    congruence.
Qed.

End GeminiFacts.

Section GeminiClaims.

Import Gemini.

(** C7.  With GEMINI_API_KEY unset, [extract_with_gemini] returns the
    empty list for any list of image paths: it raises nothing, issues no
    request, and prints the error line. *)
Theorem missing_credential (w : World) (image_paths : list string)
  (resize_factor : float) (e : Effects) :
  environ_get w "GEMINI_API_KEY" = None ->
  fst (extract_with_gemini w image_paths resize_factor e) = inr [] /\
  requests (snd (extract_with_gemini w image_paths resize_factor e))
    = requests e /\
  stdout (snd (extract_with_gemini w image_paths resize_factor e))
    = stdout e ++
      ["Error: GEMINI_API_KEY environment variable not set. Please set it to your API key."%string].
Proof.
  intros H. unfold extract_with_gemini, api_key_of. rewrite H.
  repeat split.
Qed.

Lemma missing_credential_witness :
  fst (extract_with_gemini Samples.no_key ["a.png"; "b.png"]%string Samples.three_quarters
         no_effects) = inr [] /\
  requests (snd (extract_with_gemini Samples.no_key ["a.png"; "b.png"]%string
                   Samples.three_quarters no_effects)) = [] /\
  stdout (snd (extract_with_gemini Samples.no_key ["a.png"; "b.png"]%string
                 Samples.three_quarters no_effects))
    = ["Error: GEMINI_API_KEY environment variable not set. Please set it to your API key."%string].
Proof.
  apply (missing_credential Samples.no_key ["a.png"; "b.png"]%string Samples.three_quarters
           no_effects).
  reflexivity.
Defined.

(** C8.  The resize factor has no influence: for any two values of it the
    call has the same result and the same effects, and the one request it
    issues (when the key is set and the files can be read) carries the
    prompt followed by the raw bytes of each image file, in order. *)
Theorem resize_factor_ignored (w : World) (image_paths : list string)
  (r1 r2 : float) (e : Effects) :
  extract_with_gemini w image_paths r1 e = extract_with_gemini w image_paths r2 e /\
  forall key datas,
    api_key_of w = Some key ->
    Forall2 (fun p d => read_bytes w p = inr d) image_paths datas ->
    requests (snd (extract_with_gemini w image_paths r1 e))
      = requests e ++
        [(MODEL, TextPart prompt :: map (fun d => BytesPart d "image/png") datas)].
Proof.
  split; [reflexivity|].
  intros key datas Hkey Hread. unfold extract_with_gemini. rewrite Hkey.
  rewrite (attach_images_ok w _ _ Hread). cbn [app].
  match goal with
  | |- context [try_body w ?c ?e0] =>
      pose proof (try_body_effects w c e0) as [Hr _];
      destruct (try_body w c e0) as [[[ex|] fr] e1]
  end; cbn [snd requests print] in *; [|exact Hr].
  pose proof (handler_effects ex fr e1) as [Hh _].
  destruct (handler ex fr e1) as [[ex'|] e2]; cbn [snd] in *; congruence.
Qed.

Lemma resize_factor_ignored_witness :
  extract_with_gemini Samples.scrolling ["a.png"]%string Samples.one no_effects
    = extract_with_gemini Samples.scrolling ["a.png"]%string Samples.half no_effects /\
  requests (snd (extract_with_gemini Samples.scrolling ["a.png"]%string Samples.one
                   no_effects))
    = [(MODEL,
        [TextPart prompt;
         BytesPart [Init.Byte.x89; Init.Byte.x50; Init.Byte.x4e; Init.Byte.x47]
           "image/png"])].
Proof.
  destruct (resize_factor_ignored Samples.scrolling ["a.png"]%string Samples.one
              Samples.half no_effects) as [H1 H2].
  split; [exact H1|].
  apply (H2 "secret"%string
           [[Init.Byte.x89; Init.Byte.x50; Init.Byte.x4e; Init.Byte.x47]]).
  - reflexivity.
  - repeat constructor.
Defined.

(** C3 (the code departs from the claim).  When the remote request itself
    raises, the handler prints its first line and then reads
    [response.text]; [response] was never bound, so [UnboundLocalError]
    leaves [extract_with_gemini] and reaches the caller.  (A failure after
    the response arrived is caught: see [response_failures_caught].) *)
Theorem request_failure_escapes (w : World) (image_paths : list string)
  (resize_factor : float) (e : Effects) (key : string)
  (contents : list Part) (ex : exn) :
  api_key_of w = Some key ->
  attach_images w image_paths [TextPart prompt] = inr contents ->
  generate_content w MODEL contents = inl ex ->
  fst (extract_with_gemini w image_paths resize_factor e)
    = inl (Exn UnboundLocalError
             "cannot access local variable 'response' where it is not associated with a value").
Proof.
  intros Hkey Hatt Hgen. unfold extract_with_gemini.
  rewrite Hkey, Hatt, (try_body_request_raises w _ _ _ Hgen).
  reflexivity.
Qed.

Lemma request_failure_escapes_witness :
  fst (extract_with_gemini Samples.offline ["a.png"]%string Samples.one no_effects)
    = inl (Exn UnboundLocalError
             "cannot access local variable 'response' where it is not associated with a value") /\
  fst (Main.main Samples.offline Samples.analyze_only_args no_effects)
    = Main.Raised
        (Exn UnboundLocalError
           "cannot access local variable 'response' where it is not associated with a value").
Proof.
  split; [|reflexivity].
  apply (request_failure_escapes Samples.offline ["a.png"]%string Samples.one
           no_effects "secret"%string
           [TextPart prompt;
            BytesPart [Init.Byte.x89; Init.Byte.x50; Init.Byte.x4e; Init.Byte.x47]
              "image/png"]
           (Exn (OtherException "ConnectError") "connection refused"));
    reflexivity.
Defined.

(** The other half of C3 holds: once the request has returned, every
    failure of the parsing steps is caught and logged, and the call
    returns the empty list. *)
Lemma response_failures_caught (w : World) (image_paths : list string)
  (resize_factor : float) (e : Effects) (key : string)
  (contents : list Part) (resp : Response) (ex : exn) :
  api_key_of w = Some key ->
  attach_images w image_paths [TextPart prompt] = inr contents ->
  generate_content w MODEL contents = inr resp ->
  fst (fst (try_body w contents
              (print ("Processing batch of " ++ str_nat (List.length image_paths)
                      ++ " images with Gemini...") e))) = Some ex ->
  fst (extract_with_gemini w image_paths resize_factor e) = inr [] /\
  In ("  An error occurred calling Gemini API or parsing response: "
        ++ exn_msg ex)%string
     (stdout (snd (extract_with_gemini w image_paths resize_factor e))).
Proof.
  intros Hkey Hatt Hgen Hex. unfold extract_with_gemini.
  rewrite Hkey, Hatt.
  match goal with
  | |- context [try_body w ?c ?e0] =>
      destruct (try_body_response w c e0 resp Hgen) as [Hresp Hmem];
      destruct (try_body w c e0) as [[r fr] e1]
  end.
  cbn [fst snd] in *. subst r. specialize (Hmem ex eq_refl).
  unfold handler. rewrite Hresp. cbn [fst snd stdout print].
  split; [now rewrite Hmem|].
  apply in_or_app. left. apply in_or_app. right. left. reflexivity.
Qed.

End GeminiClaims.

(* ================================================================== *)
(** * Aggregation and export *)

Section AggregationFacts.

Import Aggregation.

Lemma key_eqb_eq (a b : string * Z) : key_eqb a b = true <-> a = b.
Proof.
  destruct a as [n p], b as [n' p']. unfold key_eqb. cbn [fst snd].
  rewrite andb_true_iff, String.eqb_eq, Z.eqb_eq.
  split; [intros [-> ->]; reflexivity | intros E; injection E; auto].
Qed.

Lemma seen_spec (k : string * Z) (seen : list (string * Z)) :
  existsb (key_eqb k) seen = true <-> In k seen.
Proof.
  rewrite existsb_exists. split.
  - intros [x [Hx E]]. apply key_eqb_eq in E. now subst.
  - intros H. exists k. split; [exact H | now apply key_eqb_eq].
Qed.

(** The rows [drop_duplicates] keeps, given the keys already seen. *)
Lemma keep_cons (seen : list (string * Z)) (i : nat) (r : MemberRecord)
  (df : DataFrame) :
  select ((i, r) :: df) (map negb (duplicated_from seen ((i, r) :: df)))
    = if existsb (key_eqb (key r)) seen
      then select df (map negb (duplicated_from (key r :: seen) df))
      else (i, r) :: select df (map negb (duplicated_from (key r :: seen) df)).
Proof. cbn. destruct (existsb (key_eqb (key r)) seen); reflexivity. Qed.

Lemma keep_keys (df : DataFrame) :
  forall seen,
  let kept := select df (map negb (duplicated_from seen df)) in
  NoDup (sheet_of kept) /\
  forall k, In k (sheet_of kept) <-> In k (sheet_of df) /\ ~ In k seen.
Proof.
  unfold sheet_of.
  induction df as [|[i r] df IH]; intros seen.
  - cbn. split; [constructor | tauto].
  - cbv zeta. rewrite keep_cons.
    destruct (IH (key r :: seen)) as [Hnd Hin]. cbv zeta in Hnd, Hin.
    destruct (existsb (key_eqb (key r)) seen) eqn:Hseen.
    + apply seen_spec in Hseen. split; [exact Hnd|].
      intros k. rewrite Hin. cbn [map In snd].
      destruct (key_dec (key r) k) as [<-|Hne]; tauto.
    + assert (Hnot : ~ In (key r) seen).
      { intros H. apply seen_spec in H. congruence. }
      split.
      * cbn [map snd]. constructor; [|exact Hnd]. rewrite Hin. cbn [In]. tauto.
      * intros k. cbn [map In snd]. rewrite Hin. cbn [In].
        destruct (key_dec (key r) k) as [<-|Hne]; tauto.
Qed.


Lemma snd_combine {A B : Type} (l : list A) :
  forall l' : list B, List.length l = List.length l' ->
  map snd (combine l l') = l'.
Proof.
  induction l as [|a l IH]; intros [|b l'] H; cbn in *; try discriminate;
    [reflexivity|].
  f_equal. apply IH. now injection H.
Qed.

Lemma sheet_of_reset_index (df : DataFrame) :
  sheet_of (reset_index df) = sheet_of df.
Proof.
  unfold sheet_of, reset_index.
  rewrite <- (map_map snd key (combine _ _)), <- (map_map snd key df).
  f_equal. apply snd_combine. now rewrite length_seq, length_map.
Qed.

Lemma sheet_of_DataFrame (records : list MemberRecord) :
  sheet_of (pd_DataFrame records) = map key records.
Proof.
  unfold sheet_of, pd_DataFrame. rewrite <- (map_map snd key). f_equal.
  apply snd_combine. now rewrite length_seq.
Qed.

End AggregationFacts.

Section AggregationClaims.

Import Aggregation.








(** The frame of a list with repeats. *)
Example export_sample :
  sheet_of (unique_members
              [Member "Ann" 1500; Member "Bob" 900; Member "Ann" 1500;
               Member "Ann" 900; Member "Bob" 900])
    = [("Ann"%string, 1500%Z); ("Bob"%string, 900%Z); ("Ann"%string, 900%Z)].
Proof. reflexivity. Qed.

End AggregationClaims.

(* ================================================================== *)
(** * The script as a whole *)

Section MainFacts.

Import Capture Gemini Main.

Variable w : World.

Lemma compare_workbooks (x : Frames.Image) (l : Locals) (e : Effects) :
  workbooks (snd (compare_with_previous x l e)) = workbooks e.
Proof.
  unfold compare_with_previous.
  destruct (previous_screenshot l) as [p|]; [|reflexivity].
  destruct (Frames.array_equal _ _); reflexivity.
Qed.

Lemma error_workbooks (ex : exn) (e : Effects) :
  workbooks (on_capture_error ex e) = workbooks e.
Proof. unfold on_capture_error. destruct (exn_cls ex); reflexivity. Qed.

Lemma iteration_workbooks (i : nat) (l : Locals) (e : Effects) :
  workbooks (snd (iteration w i l e)) = workbooks e.
Proof.
  unfold iteration.
  destruct (stop_capture_flag w i); [reflexivity|].
  destruct (screenshot w i GAME_WINDOW_REGION) as [ex|x];
    [cbn [snd]; now rewrite error_workbooks|].
  destruct (save w i (screenshot_filename i)) as [ex|];
    [cbn [snd]; now rewrite error_workbooks|].
  match goal with
  | |- context [compare_with_previous ?a ?b ?c] =>
      pose proof (compare_workbooks a b c) as H;
      destruct (compare_with_previous a b c) as [c0 e2]
  end.
  cbn [snd] in H. destruct (2 <=? c0); cbn [snd workbooks print]; exact H.
Qed.

Lemma for_range_workbooks (indices : list nat) :
  forall l e, workbooks (snd (for_range w indices l e)) = workbooks e.
Proof.
  induction indices as [|i rest IH]; intros l e; [reflexivity|].
  cbn [for_range]. pose proof (iteration_workbooks i l e) as H.
  destruct (iteration w i l e) as [[[|] l'] e']; cbn [snd] in *.
  - now rewrite IH.
  - exact H.
Qed.

Lemma collect_workbooks (args : Args) (e : Effects) :
  workbooks (snd (collect w args e)) = workbooks e.
Proof.
  unfold collect. destruct (analyze_only args); cbn [negb].
  - destruct (glob_screenshots w); reflexivity.
  - unfold capture_loop.
    pose proof (for_range_workbooks (seq 0 MAX_CAPTURES) initial (print_banner e))
      as H.
    destruct (for_range w (seq 0 MAX_CAPTURES) initial (print_banner e))
      as [l e'].
    cbn [snd] in H. destruct (screenshot_only args); cbn [snd workbooks print];
      exact H.
Qed.

(** On a malformed answer the call returns the empty list. *)
Lemma extract_malformed (image_paths : list string) (rf : float)
  (e : Effects) (key : string) (contents : list Part) (resp : Response)
  (t : string) :
  api_key_of w = Some key ->
  attach_images w image_paths [TextPart prompt] = inr contents ->
  generate_content w MODEL contents = inr resp ->
  text resp = Some t ->
  Spec.malformed w t ->
  fst (extract_with_gemini w image_paths rf e) = inr [].
Proof.
  intros Hkey Hatt Hgen Htext Hbad. unfold extract_with_gemini.
  rewrite Hkey, Hatt.
  match goal with
  | |- context [try_body w ?c ?e0] =>
      destruct (try_body_malformed w c e0 resp t Hgen Htext Hbad)
        as [r [e' [-> _]]]
  end.
  destruct r as [ex|]; reflexivity.
Qed.

End MainFacts.

Section MainClaims.

Import Capture Gemini Main.

(** C4 as stated fails: the answer "not json" is malformed, the run
    completes, and no spreadsheet is written. *)
Lemma malformed_response_writes_nothing :
  Spec.malformed Samples.scrolling "not json" /\
  fst (main Samples.scrolling Samples.analyze_only_args no_effects) = Completed /\
  ~ (exists file sheet,
       In (file, sheet)
          (workbooks (snd (main Samples.scrolling Samples.analyze_only_args
                             no_effects)))).
Proof.
  split; [left; eexists; reflexivity|].
  split; [reflexivity|].
  intros [file [sheet H]]. exact H.
Qed.

(** C4, amended.  In every run whose remote extraction receives a
    malformed answer (not valid JSON, or a JSON object without a "players"
    list), the extraction yields the empty list and the run completes
    without an exception; it writes no spreadsheet, the export being
    skipped for an empty list. *)
Theorem malformed_response_run (w : World) (args : Args) (e e1 : Effects)
  (files : list string) (key : string) (contents : list Part)
  (resp : Response) (t : string) :
  analyze_only args && screenshot_only args = false ->
  collect w args e = (Some files, e1) ->
  files <> [] ->
  api_key_of w = Some key ->
  attach_images w files [TextPart prompt] = inr contents ->
  generate_content w MODEL contents = inr resp ->
  text resp = Some t ->
  Spec.malformed w t ->
  (forall e', fst (extract_with_gemini w files (gemini_resize_factor args) e')
              = inr []) /\
  fst (main w args e) = Completed /\
  workbooks (snd (main w args e)) = workbooks e.
Proof.
  intros Hflags Hcol Hne Hkey Hatt Hgen Htext Hbad.
  assert (Hex : forall e', fst (extract_with_gemini w files
                                  (gemini_resize_factor args) e') = inr [])
    by (intros e'; exact (extract_malformed w files _ e' key contents resp t
                            Hkey Hatt Hgen Htext Hbad)).
  split; [exact Hex|].
  pose proof (collect_workbooks w args e) as Hw1. rewrite Hcol in Hw1.
  cbn [snd] in Hw1.
  unfold main. rewrite Hflags, Hcol. unfold analyse_and_export, analysis.
  destruct files as [|f files']; [contradiction|].
  match goal with
  | |- context [extract_with_gemini w ?p ?r ?e0] =>
      pose proof (Hex e0) as H0;
      pose proof (extract_with_gemini_workbooks w p r e0) as Hw2;
      destruct (extract_with_gemini w p r e0) as [res e2]
  end.
  cbn [fst snd workbooks print] in *. subst res. cbn [export_data fst snd].
  split; [reflexivity | congruence].
Qed.

Lemma malformed_response_run_witness :
  (forall e', fst (extract_with_gemini Samples.empty_object
                     ["analysis/guild_screenshot_0.png"%string] Samples.one e')
              = inr []) /\
  fst (main Samples.empty_object Samples.analyze_only_args no_effects)
    = Completed /\
  workbooks (snd (main Samples.empty_object Samples.analyze_only_args
                    no_effects)) = [].
Proof.
  eapply (malformed_response_run Samples.empty_object Samples.analyze_only_args
            no_effects _ ["analysis/guild_screenshot_0.png"%string]
            "secret"%string _ (MkResponse (Some "```json{}```"%string))
            "```json{}```"%string).
  - reflexivity.
  - reflexivity.
  - discriminate.
  - reflexivity.
  - reflexivity.
  - reflexivity.
  - reflexivity.
  - right. exists []. split; [reflexivity | discriminate].
Defined.

(** C9 as stated fails: in a screenshot-only run the backend error ends
    the loop with two files collected, and the script exits; no analysis
    phase receives them. *)
Lemma screenshot_only_run_skips_analysis :
  Spec.capture_raises Samples.backend_fails 2
    (Exn PyAutoGUIException "screen grab failed") /\
  screenshot_files
    (fst (capture_loop Samples.backend_fails (print_banner no_effects)))
    = ["analysis/guild_screenshot_0.png"; "analysis/guild_screenshot_1.png"]%string /\
  fst (main Samples.backend_fails Samples.screenshot_only_args no_effects)
    = Exited /\
  requests (snd (main Samples.backend_fails Samples.screenshot_only_args
                   no_effects)) = [] /\
  existsb (String.eqb (String "010"%char "--- Starting Analysis Phase ---"))
    (stdout (snd (main Samples.backend_fails Samples.screenshot_only_args
                    no_effects))) = false.
Proof.
  split; [split; [reflexivity | left; reflexivity]|].
  vm_compute. repeat split.
Qed.

(** C9, amended.  When iteration [i] of the capture loop meets a
    capture-backend error, the loop ends at that iteration (it has run
    [i + 1] bodies, the backend is not asked again), the files collected
    in iterations 0 .. i-1 are retained and no further file is written;
    unless the run is screenshot-only, in which case the script exits
    after the capture phase, exactly that list goes on to the analysis
    phase. *)
Theorem capture_error_keeps_files (w : World) (args : Args) (e_init : Effects)
  (i : nat) (l : Locals) (e : Effects) (ex : exn) :
  analyze_only args = false ->
  i < MAX_CAPTURES ->
  Spec.reaches w (print_banner e_init) i l e ->
  Spec.capture_raises w i ex ->
  let done := capture_loop w (print_banner e_init) in
  iterations (fst done) = S i /\
  screenshot_files (fst done) = screenshot_files l /\
  screenshot_files l = map screenshot_filename (seq 0 i) /\
  saved (snd done) = saved e /\
  (screenshot_only args = false ->
   main w args e_init =
     analyse_and_export w args (screenshot_files l)
       (print (finished_line (screenshot_files l)) (snd done))) /\
  (screenshot_only args = true ->
   main w args e_init =
     (Exited,
      print "Screenshot-only mode enabled. Exiting without analysis."
        (print (finished_line (screenshot_files l)) (snd done)))).
Proof.
  intros Hmode Hi Hreach Hraise done.
  destruct (capture_loop_error w (print_banner e_init) i l e ex Hi Hreach Hraise)
    as (H1 & H2 & H3 & H4).
  fold done in H1, H2, H4.
  repeat split; auto; intros Hso; unfold main, collect;
    rewrite Hmode, Hso; cbn [andb negb]; fold done;
    destruct done as [l' e']; cbn [fst snd] in *; now rewrite H2.
Qed.

Lemma capture_error_keeps_files_witness :
  let done := capture_loop Samples.backend_fails (print_banner no_effects) in
  let files := ["analysis/guild_screenshot_0.png";
                "analysis/guild_screenshot_1.png"]%string in
  iterations (fst done) = 3 /\
  screenshot_files (fst done) = files /\
  List.length (saved (snd done)) = 2 /\
  main Samples.backend_fails Samples.default_args no_effects =
    analyse_and_export Samples.backend_fails Samples.default_args files
      (print (finished_line files) (snd done)).
Proof.
  intros done files.
  assert (R0 : Spec.reaches Samples.backend_fails (print_banner no_effects) 0
                 initial (print_banner no_effects)) by constructor.
  pose proof (Spec.reaches_next R0 eq_refl) as R1.
  pose proof (Spec.reaches_next R1 eq_refl) as R2.
  destruct (capture_error_keeps_files Samples.backend_fails Samples.default_args
              no_effects 2 _ _ (Exn PyAutoGUIException "screen grab failed")
              eq_refl ltac:(unfold MAX_CAPTURES; lia) R2
              (conj eq_refl (or_introl eq_refl)))
    as (H1 & H2 & H3 & H4 & H5 & _).
  fold done in H1, H2, H4, H5.
  split; [exact H1|].
  split; [exact H2|].
  split; [rewrite H4; reflexivity|].
  exact (H5 eq_refl).
Defined.

End MainClaims.

(* ================================================================== *)
(** * More about the local parse *)

Section LocalParseMore.

Import Py Re LocalParse.

Lemma split_on_app (sep : ascii) (a b : list ascii) :
  forall cur,
  split_on sep cur (a ++ sep :: b) = split_on sep cur a ++ split_on sep [] b.
Proof.
  induction a as [|c a IH]; intros cur; cbn.
  - now rewrite Ascii.eqb_refl.
  - destruct (Ascii.eqb c sep); [cbn; f_equal|]; apply IH.
Qed.

Lemma parse_lines_app (l1 l2 : list (list ascii)) :
  parse_lines (l1 ++ l2) = parse_lines l1 ++ parse_lines l2.
Proof.
  induction l1 as [|line l1 IH]; cbn; [reflexivity|].
  destruct (parse_line line); cbn; now rewrite IH.
Qed.

Lemma list_ascii_app (a b : string) :
  list_ascii_of_string (a ++ b) = list_ascii_of_string a ++ list_ascii_of_string b.
Proof. induction a as [|c a IH]; cbn; [reflexivity | now rewrite IH]. Qed.

(** X1.  Lines are parsed independently and in order: the records of two
    texts joined by a newline are the records of the first followed by
    the records of the second. *)
Theorem extract_joined_texts (a b : string) :
  extract_names_and_points (a ++ String newline b)
    = extract_names_and_points a ++ extract_names_and_points b.
Proof.
  unfold extract_names_and_points, split.
  rewrite list_ascii_app. cbn [list_ascii_of_string].
  now rewrite split_on_app, parse_lines_app.
Qed.

Lemma lstrip_all_space (s : list ascii) :
  Forall (fun c => isspace c = true) s -> lstrip s = [].
Proof. induction 1 as [|c s Hc _ IH]; cbn; [reflexivity | now rewrite Hc]. Qed.

Lemma split_on_Forall (P : ascii -> Prop) (sep : ascii) (s : list ascii) :
  Forall P s -> forall cur, Forall P cur ->
  Forall (Forall P) (split_on sep cur s).
Proof.
  induction 1 as [|c s Hc _ IH]; intros cur Hcur; cbn.
  - constructor; [now apply Forall_rev | constructor].
  - destruct (Ascii.eqb c sep).
    + constructor; [now apply Forall_rev | apply IH; constructor].
    + apply IH. now constructor.
Qed.

Lemma blank_line_skipped (line : list ascii) :
  Forall (fun c => isspace c = true) line -> parse_line line = None.
Proof.
  intros H. unfold parse_line, strip. now rewrite (lstrip_all_space _ H).
Qed.

(** X2.  A text made of whitespace only (the empty text included) yields
    no record: every one of its lines is skipped. *)
Theorem whitespace_text_no_records (text : string) :
  Forall (fun c => isspace c = true) (list_ascii_of_string text) ->
  extract_names_and_points text = [].
Proof.
  intros H. unfold extract_names_and_points, split.
  pose proof (split_on_Forall _ newline _ H [] (Forall_nil _)) as Hl.
  induction Hl as [|line rest Hline _ IH]; cbn; [reflexivity|].
  now rewrite (blank_line_skipped _ Hline).
Qed.

Lemma whitespace_text_no_records_witness :
  extract_names_and_points (String " " (String newline (String "009" ""))) = [].
Proof.
  apply whitespace_text_no_records. repeat constructor.
Defined.

(** X3.  At most one record per line: [re.search] stops at the first
    match, so a text never yields more records than it has lines. *)
Theorem one_record_per_line (text : string) :
  List.length (extract_names_and_points text)
    <= List.length (split newline (list_ascii_of_string text)).
Proof.
  unfold extract_names_and_points.
  induction (split newline (list_ascii_of_string text)) as [|line rest IH];
    cbn; [lia|].
  destruct (parse_line line); cbn; lia.
Qed.

End LocalParseMore.

Section GreedyMatch.

Import Py Re LocalParse.

Lemma strip_id (s : list ascii) :
  Spec.no_edge_space s -> Spec.no_edge_space (rev s) -> strip s = s.
Proof.
  intros Hh Hl. unfold strip, rstrip.
  assert (E : lstrip s = s) by (destruct s; cbn in *; [reflexivity | now rewrite Hh]).
  rewrite E.
  assert (E' : lstrip (rev s) = rev s)
    by (destruct (rev s); cbn in *; [reflexivity | now rewrite Hl]).
  rewrite E'. apply rev_involutive.
Qed.

Lemma digit_not_space (c : ascii) : isdigit c = true -> isspace c = false.
Proof.
  unfold isdigit, isspace, between. intros H.
  apply andb_true_iff in H as [H1 H2]. apply Nat.leb_le in H1, H2.
  apply orb_false_iff. split; apply andb_false_iff.
  - right. apply Nat.leb_gt. lia.
  - right. apply Nat.leb_gt. lia.
Qed.

Lemma digit_name_class (c : ascii) : isdigit c = true -> name_class c = true.
Proof. unfold name_class. intros ->. rewrite orb_true_r. reflexivity. Qed.

Lemma count_prefix_run (p : ascii -> bool) (a rest : list ascii) :
  Forall (fun c => p c = true) a -> Runs.stops p rest ->
  count_prefix p None (a ++ rest) = List.length a.
Proof.
  intros Ha Hr. induction Ha as [|c a Hc _ IH]; cbn.
  - destruct rest; cbn in *; [reflexivity | now rewrite Hr].
  - now rewrite Hc, IH.
Qed.

Lemma count_prefix_run_bounded (p : ascii -> bool) (a rest : list ascii) :
  Forall (fun c => p c = true) a -> Runs.stops p rest ->
  forall b, List.length a <= b ->
  count_prefix p (Some b) (a ++ rest) = List.length a.
Proof.
  intros Ha Hr. induction Ha as [|c a Hc _ IH]; intros b Hb; cbn.
  - destruct rest; cbn in *; [reflexivity | now rewrite Hr].
  - rewrite Hc. destruct b as [|b]; cbn in Hb; [lia|].
    now rewrite IH by lia.
Qed.

(** The longest length at which the continuation succeeds wins. *)
Lemma backoff_first {A : Type} (k : nat -> option A) (lo m0 : nat) (r : A) :
  forall n, lo <= m0 <= n ->
  (forall m, m0 < m <= n -> k m = None) ->
  k m0 = Some r ->
  backoff n lo k = Some r.
Proof.
  induction n as [|n IH]; intros Hm Hnone Hk.
  - assert (m0 = 0) by lia. assert (lo = 0) by lia. subst. cbn.
    now rewrite Hk.
  - cbn [backoff]. destruct (S n <? lo) eqn:E; [apply Nat.ltb_lt in E; lia|].
    destruct (Nat.eq_dec m0 (S n)) as [->|Hne]; [now rewrite Hk|].
    rewrite Hnone by lia. apply IH; [lia | | exact Hk].
    intros m Hm'. apply Hnone. lia.
Qed.

(** [\s*(\d{3,5})] at the head of whitespace followed by 3 to 5 digits that
    end the line. *)
Lemma match_points (ws ds : list ascii) :
  Forall (fun c => isspace c = true) ws ->
  Forall (fun c => isdigit c = true) ds ->
  3 <= List.length ds <= 5 ->
  match_here [Item isspace 0 None false; Item isdigit 3 (Some 5) true] (ws ++ ds)
    = Some [ds].
Proof.
  intros Hws Hds Hlen. cbn [match_here cls rmin rmax capturing].
  assert (Hstop : Runs.stops isspace ds).
  { destruct Hds as [|d ds Hd _]; [exact I | now apply digit_not_space]. }
  rewrite (count_prefix_run isspace ws ds Hws Hstop).
  apply (backoff_first _ 0 (List.length ws)); [lia | intros m Hm; lia |].
  cbv beta. rewrite skipn_app, Nat.sub_diag, (skipn_all ws). cbn [skipn app].
  pose proof (count_prefix_run_bounded isdigit ds [] Hds I 5 ltac:(lia)) as Hc.
  rewrite app_nil_r in Hc. cbn [match_here cls rmin rmax capturing]. rewrite Hc.
  rewrite (backoff_first _ 3 (List.length ds) [ds]); [reflexivity | lia | intros m Hm; lia |].
  cbv beta. now rewrite (firstn_all ds).
Qed.

Lemma match_points_short (s : list ascii) :
  List.length s < 3 ->
  match_here [Item isspace 0 None false; Item isdigit 3 (Some 5) true] s = None.
Proof.
  intros Hs.
  destruct (match_here _ s) as [gs|] eqn:H; [exfalso | reflexivity].
  destruct (match_here_pieces _ _ _ H) as [pieces [rest [E [Hok _]]]].
  inversion Hok as [|? ws ? ? _ Hok1]; subst; clear Hok.
  inversion Hok1 as [|? g2 ? ? [_ [Hlo _]] Hok2]; subst; clear Hok1.
  inversion Hok2; subst. cbn in Hlo.
  cbn in Hs. rewrite !length_app in Hs. lia.
Qed.

Lemma search_here (items : list item) (s : list ascii) (gs : list (list ascii)) :
  match_here items s = Some gs -> search items s = Some gs.
Proof. intros H. destruct s; cbn [search]; now rewrite H. Qed.

Lemma no_edge_app (a b : list ascii) :
  a <> [] -> Spec.no_edge_space a -> Spec.no_edge_space (a ++ b).
Proof. destruct a; [contradiction | auto]. Qed.

Lemma digits_no_edge (ds : list ascii) :
  Forall (fun c => isdigit c = true) ds ->
  Spec.no_edge_space ds /\ Spec.no_edge_space (rev ds).
Proof.
  intros H. split.
  - destruct H; [exact I | now apply digit_not_space].
  - apply Forall_rev in H.
    destruct H; [exact I | now apply digit_not_space].
Qed.

Lemma line_ends_in_digits (a ds : list ascii) :
  a <> [] -> Spec.no_edge_space a ->
  Forall (fun c => isdigit c = true) ds -> ds <> [] ->
  strip (a ++ ds) = a ++ ds.
Proof.
  intros Ha Hedge Hds Hne. apply strip_id; [now apply no_edge_app|].
  rewrite rev_app_distr. apply no_edge_app.
  - intros E. apply Hne. apply (f_equal (@rev ascii)) in E.
    now rewrite rev_involutive in E.
  - now apply digits_no_edge.
Qed.

End GreedyMatch.

Section GreedyClaims.

Import Py Re LocalParse.

Lemma match_here_cons (it : item) (rest : list item) (s : list ascii) :
  match_here (it :: rest) s =
    backoff (count_prefix (cls it) (rmax it) s) (rmin it)
      (fun n =>
         match match_here rest (skipn n s) with
         | Some gs => Some (if capturing it then firstn n s :: gs else gs)
         | None => None
         end).
Proof. reflexivity. Qed.

Lemma firstn_exact (a b : list ascii) : firstn (List.length a) (a ++ b) = a.
Proof.
  rewrite firstn_app, Nat.sub_diag, (firstn_all a). cbn. apply app_nil_r.
Qed.

Lemma skipn_exact (a b : list ascii) : skipn (List.length a) (a ++ b) = b.
Proof. rewrite skipn_app, Nat.sub_diag, (skipn_all a). reflexivity. Qed.

(** The name group takes the whole line and gives back three digits. *)
Lemma match_greedy (pre ds : list ascii) :
  pre <> [] ->
  Forall (fun c => name_class c = true) pre ->
  Forall (fun c => isdigit c = true) ds ->
  List.length ds = 3 ->
  match_here pattern (pre ++ ds) = Some [pre; ds].
Proof.
  intros Hne Hpre Hds Hlen. unfold pattern. rewrite match_here_cons.
  cbn [cls rmin rmax capturing].
  assert (Hall : Forall (fun c => name_class c = true) (pre ++ ds)).
  { apply Forall_app. split; [exact Hpre|].
    eapply Forall_impl; [|exact Hds]. apply digit_name_class. }
  pose proof (count_prefix_run name_class (pre ++ ds) [] Hall I) as Hc.
  rewrite app_nil_r in Hc. rewrite Hc, length_app.
  assert (0 < List.length pre) by (destruct pre; [contradiction | cbn; lia]).
  apply (backoff_first _ 1 (List.length pre)); [lia | |].
  - intros m Hm. cbv beta. rewrite match_points_short; [reflexivity|].
    rewrite length_skipn, length_app. lia.
  - cbv beta. rewrite skipn_exact, firstn_exact.
    pose proof (match_points [] ds (Forall_nil _) Hds ltac:(lia)) as Hp.
    cbn [app] in Hp. now rewrite Hp.
Qed.

(** X4.  On a line written only with letters, digits, underscores, blanks
    and hyphens that ends in three digits (with something before them),
    the name group takes everything but those three digits: Points is
    the value of the last three digits of the line, whatever stands
    before them, and Name is the cleaned rest. *)
Theorem points_are_last_three_digits (pre ds : list ascii) :
  pre <> [] -> Spec.no_edge_space pre ->
  Forall (fun c => name_class c = true) pre ->
  Forall (fun c => isdigit c = true) ds ->
  List.length ds = 3 ->
  parse_line (pre ++ ds)
    = Some (Member (string_of_list_ascii (strip (sub_clean (strip pre))))
              (int ds)).
Proof.
  intros Hne Hedge Hpre Hds Hlen.
  assert (Hds' : ds <> []) by (destruct ds; [discriminate | discriminate]).
  pose proof (match_greedy pre ds Hne Hpre Hds Hlen) as Hm.
  apply search_here in Hm.
  destruct (digits_no_edge ds Hds) as [Hd1 Hd2].
  unfold parse_line. rewrite (line_ends_in_digits pre ds Hne Hedge Hds Hds').
  rewrite Hm. rewrite (strip_id ds Hd1 Hd2).
  destruct pre; [contradiction | reflexivity].
Qed.

Lemma points_are_last_three_digits_witness :
  parse_line (list_ascii_of_string "Guild Master 98765")
    = Some (Member "Guild Master 98" 765).
Proof.
  apply (points_are_last_three_digits
           (list_ascii_of_string "Guild Master 98")
           (list_ascii_of_string "765")).
  - discriminate.
  - reflexivity.
  - repeat constructor.
  - repeat constructor.
  - reflexivity.
Defined.

(** X5.  When the name is followed by whitespace that does not start with
    a blank (a tab, say) and then by 3 to 5 digits that end the line, the
    first attempt of the pattern succeeds: Points is the value of the
    whole digit group and Name the cleaned name. *)
Theorem name_then_tab_then_points (name sep ds : list ascii) (s0 : ascii) :
  name <> [] -> Spec.no_edge_space name ->
  Forall (fun c => name_class c = true) name ->
  name_class s0 = false ->
  Forall (fun c => isspace c = true) (s0 :: sep) ->
  Forall (fun c => isdigit c = true) ds ->
  3 <= List.length ds <= 5 ->
  parse_line (name ++ s0 :: sep ++ ds)
    = Some (Member (string_of_list_ascii (strip (sub_clean (strip name))))
              (int ds)).
Proof.
  intros Hne Hedge Hname Hs0 Hsep Hds Hlen.
  assert (Hds' : ds <> []) by (destruct ds; [cbn in Hlen; lia | discriminate]).
  destruct (digits_no_edge ds Hds) as [Hd1 Hd2].
  assert (Hm : match_here pattern (name ++ (s0 :: sep) ++ ds) = Some [name; ds]).
  { unfold pattern. rewrite match_here_cons. cbn [cls rmin rmax capturing].
    rewrite (count_prefix_run name_class name ((s0 :: sep) ++ ds) Hname Hs0).
    assert (0 < List.length name) by (destruct name; [contradiction | cbn; lia]).
    apply (backoff_first _ 1 (List.length name)); [lia | intros m Hm; lia |].
    cbv beta. rewrite skipn_exact, firstn_exact.
    now rewrite (match_points (s0 :: sep) ds Hsep Hds Hlen). }
  apply search_here in Hm.
  assert (Hline : strip (name ++ s0 :: sep ++ ds) = name ++ (s0 :: sep) ++ ds).
  { change (name ++ s0 :: sep ++ ds) with (name ++ (s0 :: sep) ++ ds).
    rewrite app_assoc. apply line_ends_in_digits; auto.
    - destruct name; [contradiction | discriminate].
    - now apply no_edge_app. }
  unfold parse_line. rewrite Hline, Hm, (strip_id ds Hd1 Hd2).
  destruct name; [contradiction | reflexivity].
Qed.

Lemma name_then_tab_then_points_witness :
  parse_line (list_ascii_of_string "PlayerOne" ++ "009"%char
                :: list_ascii_of_string "1500")
    = Some (Member "PlayerOne" 1500).
Proof.
  apply (name_then_tab_then_points (list_ascii_of_string "PlayerOne") []
           (list_ascii_of_string "1500") "009"%char).
  - discriminate.
  - reflexivity.
  - repeat constructor.
  - reflexivity.
  - repeat constructor.
  - repeat constructor.
  - cbn. lia.
Defined.

End GreedyClaims.

(* ================================================================== *)
(** * More about the capture loop *)

Section CaptureMore.

Import Frames Capture.

Variable w : World.

Lemma str_nat_inj (a b : nat) : str_nat a = str_nat b -> a = b.
Proof.
  unfold str_nat. intros H.
  apply (f_equal NilEmpty.uint_of_string) in H. rewrite !NilEmpty.usu in H.
  injection H as H. apply (f_equal Nat.of_uint) in H.
  now rewrite !DecimalNat.Unsigned.of_to in H.
Qed.

Lemma append_inv_head (p a b : string) : (p ++ a = p ++ b)%string -> a = b.
Proof. induction p as [|c p IH]; cbn; intros H; [exact H | injection H; auto]. Qed.

Lemma append_inv_tail (a b s : string) : (a ++ s = b ++ s)%string -> a = b.
Proof.
  intros H. apply (f_equal list_ascii_of_string) in H.
  rewrite !list_ascii_app in H. apply app_inv_tail in H.
  apply (f_equal string_of_list_ascii) in H.
  now rewrite !string_of_list_ascii_of_string in H.
Qed.

Lemma screenshot_filename_inj (i j : nat) :
  screenshot_filename i = screenshot_filename j -> i = j.
Proof.
  unfold screenshot_filename, path_join. intros H.
  do 3 apply append_inv_head in H. apply append_inv_tail in H.
  now apply str_nat_inj.
Qed.

(** The comparison changes nothing but the printed lines. *)
Lemma compare_frame (x : Image) (l : Locals) (e : Effects) :
  fst (compare_with_previous x l e) = Runs.next_count x l /\
  grabs (snd (compare_with_previous x l e)) = grabs e /\
  saved (snd (compare_with_previous x l e)) = saved e /\
  requests (snd (compare_with_previous x l e)) = requests e /\
  workbooks (snd (compare_with_previous x l e)) = workbooks e.
Proof.
  unfold compare_with_previous, Runs.next_count, Spec.same.
  destruct (previous_screenshot l) as [p|]; [|auto].
  destruct (array_equal (np_array x) (np_array p)); auto.
Qed.

Lemma error_frame (ex : exn) (e : Effects) :
  grabs (on_capture_error ex e) = grabs e /\
  saved (on_capture_error ex e) = saved e /\
  requests (on_capture_error ex e) = requests e /\
  workbooks (on_capture_error ex e) = workbooks e.
Proof. unfold on_capture_error. destruct (exn_cls ex); auto. Qed.

(** An iteration that grabs and saves frame [x]. *)
Lemma iteration_ok (i : nat) (l : Locals) (e : Effects) (x : Image) :
  stop_capture_flag w i = false ->
  screenshot w i GAME_WINDOW_REGION = inr x ->
  save w i (screenshot_filename i) = None ->
  exists e',
    iteration w i l e
      = (if 2 <=? Runs.next_count x l then Break else Next,
         Runs.advanced i x l, e') /\
    grabs e' = grabs e ++ [x] /\
    saved e' = saved e ++ [(screenshot_filename i, x)] /\
    requests e' = requests e /\
    workbooks e' = workbooks e.
Proof.
  intros Hstop Hshot Hsave. unfold iteration. rewrite Hstop, Hshot, Hsave.
  match goal with
  | |- context [compare_with_previous ?a ?b ?c] =>
      destruct (compare_frame a b c) as (Hc & Hg & Hs & Hr & Hw);
      destruct (compare_with_previous a b c) as [c0 e2]
  end.
  cbn [fst snd grabs saved requests workbooks print record_grab record_save] in *.
  unfold Runs.next_count in Hc.
  cbn [previous_screenshot consecutive_same_captures] in Hc.
  fold (Runs.next_count x l) in Hc. subst c0.
  unfold Runs.advanced.
  cbn [screenshot_files iterations].
  destruct (2 <=? Runs.next_count x l); eexists; (split; [reflexivity|]);
    cbn [grabs saved requests workbooks print]; auto.
Qed.

(** An iteration that lets the loop go on grabbed and saved a frame. *)
Lemma iteration_goes_on (i : nat) (l l' : Locals) (e e' : Effects) :
  iteration w i l e = (Next, l', e') ->
  exists x,
    stop_capture_flag w i = false /\
    screenshot w i GAME_WINDOW_REGION = inr x /\
    save w i (screenshot_filename i) = None /\
    Runs.next_count x l < 2 /\
    l' = Runs.advanced i x l /\
    grabs e' = grabs e ++ [x] /\
    saved e' = saved e ++ [(screenshot_filename i, x)] /\
    requests e' = requests e /\
    workbooks e' = workbooks e.
Proof.
  intros H.
  destruct (stop_capture_flag w i) eqn:Hstop;
    [unfold iteration in H; rewrite Hstop in H; discriminate|].
  destruct (screenshot w i GAME_WINDOW_REGION) as [ex|x] eqn:Hshot;
    [unfold iteration in H; rewrite Hstop, Hshot in H; discriminate|].
  destruct (save w i (screenshot_filename i)) as [ex|] eqn:Hsave;
    [unfold iteration in H; rewrite Hstop, Hshot, Hsave in H; discriminate|].
  destruct (iteration_ok i l e x Hstop Hshot Hsave) as [e2 (Hit & Hrest)].
  rewrite Hit in H. exists x.
  destruct (2 <=? Runs.next_count x l) eqn:Hc; [discriminate|].
  apply Nat.leb_gt in Hc. injection H as <- <-. repeat split; tauto.
Qed.

(** What any iteration does to the list of files and to the files on
    disk: nothing, and then it leaves the loop, or one more file named
    after the iteration. *)
Lemma iteration_files (i : nat) (l : Locals) (e : Effects) :
  (fst (fst (iteration w i l e)) = Break /\
   screenshot_files (snd (fst (iteration w i l e))) = screenshot_files l /\
   saved (snd (iteration w i l e)) = saved e) \/
  (screenshot_files (snd (fst (iteration w i l e)))
     = screenshot_files l ++ [screenshot_filename i] /\
   exists x, saved (snd (iteration w i l e))
             = saved e ++ [(screenshot_filename i, x)]).
Proof.
  destruct (stop_capture_flag w i) eqn:Hstop;
    [left; unfold iteration; rewrite Hstop; auto|].
  destruct (screenshot w i GAME_WINDOW_REGION) as [ex|x] eqn:Hshot.
  { left. unfold iteration. rewrite Hstop, Hshot. cbn [fst snd screenshot_files].
    destruct (error_frame ex (print ("Taking screenshot " ++ str_nat (i + 1) ++ "...") e))
      as (_ & Hs & _). rewrite Hs. auto. }
  destruct (save w i (screenshot_filename i)) as [ex|] eqn:Hsave.
  { left. unfold iteration. rewrite Hstop, Hshot, Hsave.
    cbn [fst snd screenshot_files].
    match goal with
    | |- context [on_capture_error ex ?e0] =>
        destruct (error_frame ex e0) as (_ & Hs & _); rewrite Hs
    end. auto. }
  right. destruct (iteration_ok i l e x Hstop Hshot Hsave) as [e2 (Hit & _ & Hs & _)].
  rewrite Hit. cbn [fst snd]. split; [reflexivity | eauto].
Qed.

End CaptureMore.

Section CaptureMoreClaims.

Import Frames Capture.

Lemma for_range_files (w : World) (base : list string) :
  forall n i l e,
  screenshot_files l = map screenshot_filename (seq 0 i) ->
  map fst (saved e) = base ++ screenshot_files l ->
  exists k,
    i <= k <= i + n /\
    screenshot_files (fst (for_range w (seq i n) l e))
      = map screenshot_filename (seq 0 k) /\
    map fst (saved (snd (for_range w (seq i n) l e)))
      = base ++ screenshot_files (fst (for_range w (seq i n) l e)).
Proof.
  induction n as [|n IH]; intros i l e Hf Hs.
  - exists i. cbn. repeat split; auto; lia.
  - cbn [seq for_range].
    destruct (iteration_files w i l e) as [(Hb & Hf' & Hs')|(Hf' & x & Hs')];
      destruct (iteration w i l e) as [[fl l'] e']; cbn [fst snd] in *.
    + subst fl. cbv beta iota. cbn [fst snd].
      exists i. rewrite Hf', Hs'. repeat split; auto; lia.
    + assert (Hf2 : screenshot_files l' = map screenshot_filename (seq 0 (S i)))
        by (rewrite Hf', Hf, seq_S, map_app; reflexivity).
      assert (Hs2 : map fst (saved e') = base ++ screenshot_files l').
      { rewrite Hs', map_app, Hs, Hf', app_assoc. reflexivity. }
      destruct fl; cbv beta iota.
      * destruct (IH (S i) l' e' Hf2 Hs2) as [k (Hk & H1 & H2)].
        exists k. repeat split; auto; lia.
      * cbn [fst snd]. exists (S i). repeat split; auto; lia.
Qed.

Lemma NoDup_map_injective {A B : Type} (f : A -> B) (l : list A) :
  (forall a b, f a = f b -> a = b) -> NoDup l -> NoDup (map f l).
Proof.
  intros Hinj. induction 1 as [|a l Ha _ IH]; cbn; constructor; [|exact IH].
  intros Hin. apply in_map_iff in Hin as [b [E Hb]].
  apply Hinj in E. now subst.
Qed.

(** X6.  In every execution the loop leaves the files it wrote named by
    sequential index, guild_screenshot_0.png upwards with no gap: the list
    [screenshot_files] is exactly these names, at most MAX_CAPTURES of
    them, all different, and the image files written are these, in this
    order. *)
Theorem files_named_in_sequence (w : World) (e : Effects) :
  exists k,
    k <= MAX_CAPTURES /\
    screenshot_files (fst (capture_loop w e))
      = map screenshot_filename (seq 0 k) /\
    NoDup (screenshot_files (fst (capture_loop w e))) /\
    map fst (saved (snd (capture_loop w e)))
      = map fst (saved e) ++ screenshot_files (fst (capture_loop w e)).
Proof.
  unfold capture_loop.
  destruct (for_range_files w (map fst (saved e)) MAX_CAPTURES 0 initial e
              eq_refl (eq_sym (app_nil_r _))) as [k (Hk & H1 & H2)].
  exists k. repeat split; auto; [lia|].
  rewrite H1. apply NoDup_map_injective; [|apply seq_NoDup].
  intros i j. apply screenshot_filename_inj.
Qed.

(** X7.  A stop signal seen at the head of iteration [i] ends the loop
    there: no frame is grabbed and no file written in that iteration, and
    the files of iterations 0 .. i-1 are kept. *)
Theorem stop_signal_ends_loop (w : World) (e0 : Effects) (i : nat)
  (l : Locals) (e : Effects) :
  i < MAX_CAPTURES ->
  Spec.reaches w e0 i l e ->
  stop_capture_flag w i = true ->
  capture_loop w e0
    = (Runs.ticked l, print "Manual stop detected. Stopping capture." e) /\
  screenshot_files l = map screenshot_filename (seq 0 i) /\
  iterations (Runs.ticked l) = S i.
Proof.
  intros Hi Hr Hstop. destruct (reaches_files _ _ _ _ _ Hr) as [Hf Hit].
  split; [|split; [exact Hf | cbn; now rewrite Hit]].
  unfold capture_loop.
  replace MAX_CAPTURES with (i + S (MAX_CAPTURES - S i)) by lia.
  rewrite (reaches_for_range _ _ _ _ _ Hr). cbn [seq for_range].
  unfold iteration. now rewrite Hstop.
Qed.

Lemma stop_signal_ends_loop_witness :
  screenshot_files (fst (capture_loop Scenarios.stopped no_effects))
    = ["analysis/guild_screenshot_0.png"; "analysis/guild_screenshot_1.png"]%string /\
  iterations (fst (capture_loop Scenarios.stopped no_effects)) = 3 /\
  List.length (grabs (snd (capture_loop Scenarios.stopped no_effects))) = 2.
Proof.
  assert (R0 : Spec.reaches Scenarios.stopped no_effects 0 initial no_effects)
    by constructor.
  pose proof (Spec.reaches_next R0 eq_refl) as R1.
  pose proof (Spec.reaches_next R1 eq_refl) as R2.
  destruct (stop_signal_ends_loop Scenarios.stopped no_effects 2 _ _
              ltac:(unfold MAX_CAPTURES; lia) R2 eq_refl) as (H1 & H2 & H3).
  rewrite H1. cbn [fst snd]. repeat split.
Defined.

(** The loop reaches every iteration while the screen keeps changing. *)
Lemma changing_screen_reaches (w : World) (e0 : Effects) (f : nat -> Image) :
  (forall i, i < MAX_CAPTURES ->
     stop_capture_flag w i = false /\
     screenshot w i GAME_WINDOW_REGION = inr (f i) /\
     save w i (screenshot_filename i) = None) ->
  (forall i, S i < MAX_CAPTURES -> Spec.same (f (S i)) (f i) = false) ->
  forall i, i <= MAX_CAPTURES ->
  exists l e,
    Spec.reaches w e0 i l e /\
    consecutive_same_captures l = 0 /\
    previous_screenshot l = match i with 0 => None | S j => Some (f j) end /\
    grabs e = grabs e0 ++ map f (seq 0 i).
Proof.
  intros Hok Hdiff. induction i as [|i IH]; intros Hi.
  - exists initial, e0. repeat split; [constructor | now rewrite app_nil_r].
  - destruct (IH ltac:(lia)) as [l [e (Hr & Hc & Hp & Hg)]].
    destruct (Hok i ltac:(lia)) as (Hstop & Hshot & Hsave).
    destruct (iteration_ok w i l e (f i) Hstop Hshot Hsave)
      as [e' (Hit & Hg' & _)].
    assert (Hn : Runs.next_count (f i) l = 0).
    { unfold Runs.next_count. rewrite Hp, Hc.
      destruct i as [|j]; [reflexivity|]. now rewrite Hdiff by lia. }
    rewrite Hn in Hit. cbn [Nat.leb] in Hit.
    exists (Runs.advanced i (f i) l), e'. repeat split.
    + exact (Spec.reaches_next Hr Hit).
    + exact Hn.
    + rewrite Hg', Hg, seq_S, map_app, <- app_assoc. reflexivity.
Qed.

(** X8.  The iteration cap: while no stop signal comes, the backend works
    and no capture duplicates the one before it, the loop runs all
    MAX_CAPTURES iterations, grabs a frame in each and ends with
    MAX_CAPTURES files. *)
Theorem changing_screen_reaches_cap (w : World) (e0 : Effects)
  (f : nat -> Image) :
  (forall i, i < MAX_CAPTURES ->
     stop_capture_flag w i = false /\
     screenshot w i GAME_WINDOW_REGION = inr (f i) /\
     save w i (screenshot_filename i) = None) ->
  (forall i, S i < MAX_CAPTURES -> Spec.same (f (S i)) (f i) = false) ->
  iterations (fst (capture_loop w e0)) = MAX_CAPTURES /\
  screenshot_files (fst (capture_loop w e0))
    = map screenshot_filename (seq 0 MAX_CAPTURES) /\
  grabs (snd (capture_loop w e0)) = grabs e0 ++ map f (seq 0 MAX_CAPTURES).
Proof.
  intros Hok Hdiff.
  destruct (changing_screen_reaches w e0 f Hok Hdiff MAX_CAPTURES (le_n _))
    as [l [e (Hr & _ & _ & Hg)]].
  destruct (reaches_files _ _ _ _ _ Hr) as [Hf Hit].
  assert (Hloop : capture_loop w e0 = (l, e)).
  { unfold capture_loop. rewrite <- (Nat.add_0_r MAX_CAPTURES).
    now rewrite (reaches_for_range _ _ _ _ _ Hr 0). }
  rewrite Hloop. cbn [fst snd]. auto.
Qed.

Lemma changing_screen_reaches_cap_witness :
  iterations (fst (capture_loop Samples.scrolling no_effects)) = MAX_CAPTURES /\
  screenshot_files (fst (capture_loop Samples.scrolling no_effects))
    = map screenshot_filename (seq 0 MAX_CAPTURES) /\
  grabs (snd (capture_loop Samples.scrolling no_effects))
    = [] ++ map (fun i => Samples.frame (N.of_nat i)) (seq 0 MAX_CAPTURES).
Proof.
  apply (changing_screen_reaches_cap Samples.scrolling no_effects
           (fun i => Samples.frame (N.of_nat i))).
  - intros i _. repeat split.
  - intros i _. unfold Spec.same, array_equal. cbn [np_array shape data negb
      shape_eqb Samples.frame width height rows flat_map bands app combine
      forallb fst snd].
    change (shape_eqb [1; 1; 3] [1; 1; 3]) with true.
    cbn [negb]. rewrite andb_false_iff. left. apply N.eqb_neq. lia.
Defined.

End CaptureMoreClaims.

Section DuplicateStop.

Import Frames Capture.

Lemma last_some {A : Type} (caps : list A) (p : A) :
  last (map Some caps) None = Some p -> exists front, caps = front ++ [p].
Proof.
  destruct caps as [|x caps _] using rev_ind; [discriminate|].
  rewrite map_app. cbn [map]. rewrite last_last. intros H. injection H as ->.
  now exists caps.
Qed.

Lemma iteration_ticks (w : World) (i : nat) (l : Locals) (e : Effects) :
  iterations (snd (fst (iteration w i l e))) = S (iterations l).
Proof.
  unfold iteration.
  destruct (stop_capture_flag w i); [reflexivity|].
  destruct (screenshot w i GAME_WINDOW_REGION); [reflexivity|].
  destruct (save w i (screenshot_filename i)); [reflexivity|].
  destruct (compare_with_previous _ _ _) as [c e2].
  destruct (2 <=? c); reflexivity.
Qed.

Lemma for_range_mono (w : World) (indices : list nat) :
  forall l e, iterations l <= iterations (fst (for_range w indices l e)).
Proof.
  induction indices as [|i rest IH]; intros l e; cbn [for_range]; [cbn; lia|].
  pose proof (iteration_ticks w i l e) as Ht.
  destruct (iteration w i l e) as [[[|] l'] e']; cbn [fst snd] in *.
  - specialize (IH l' e'). lia.
  - lia.
Qed.

(** At the head of a reached iteration the counter is at least 1 only
    when the last two frames grabbed are duplicates. *)
Lemma reaches_count (w : World) (e0 : Effects) (i : nat) (l : Locals)
  (e : Effects) :
  Spec.reaches w e0 i l e ->
  exists caps,
    grabs e = grabs e0 ++ caps /\
    Spec.head_inv caps l /\
    (1 <= consecutive_same_captures l ->
     exists front a b, caps = front ++ [a; b] /\ Spec.same b a = true).
Proof.
  induction 1 as [|i l e l' e' _ [caps (Hg & Hinv & Hconv)] Hit].
  - exists []. repeat split; try apply initial_head_inv.
    + now rewrite app_nil_r.
    + cbn. lia.
  - destruct (iteration_goes_on w i l l' e e' Hit)
      as [x (_ & _ & _ & Hlt & -> & Hg' & _)].
    exists (caps ++ [x]).
    destruct (iteration_inv w (fun _ => True) (grabs e0) caps i l e
                (fun _ _ _ => I) Hg Hinv) as [caps' (Hg2 & _ & _ & _ & Hflow)].
    { apply Forall_forall. auto. }
    rewrite Hit in Hg2, Hflow. cbn [fst snd] in Hg2, Hflow.
    assert (caps' = caps ++ [x]).
    { rewrite Hg', Hg, <- app_assoc in Hg2. now apply app_inv_head in Hg2. }
    subst caps'. split; [now rewrite Hg', Hg, <- app_assoc|].
    split; [exact Hflow|].
    cbn [Runs.advanced consecutive_same_captures]. intros Hge.
    destruct Hinv as (Hprev & _).
    unfold Runs.next_count in Hge.
    destruct (previous_screenshot l) as [p|] eqn:Hp.
    + destruct (Spec.same x p) eqn:Hsame; [|lia].
      symmetry in Hprev. apply last_some in Hprev as [front ->].
      exists front, p, x. split; [now rewrite <- app_assoc | exact Hsame].
    + destruct (Hconv Hge) as [front [a [b [-> _]]]].
      replace (front ++ [a; b]) with ((front ++ [a]) ++ [b]) in Hprev
        by (now rewrite <- app_assoc).
      rewrite map_app in Hprev. cbn [map] in Hprev.
      rewrite last_last in Hprev. discriminate.
Qed.

(** X9.  The duplicate rule stops the loop only on three successive
    duplicates.  When iteration [i] (not the last one) is reached, sees no
    stop signal and grabs and saves frame [x], the loop ends at this
    iteration exactly when the two frames grabbed before [x] pass the
    duplicate check and [x] passes it against the later of them. *)
Theorem duplicate_rule_exact (w : World) (e0 : Effects) (i : nat)
  (l : Locals) (e : Effects) (caps : list Image) (x : Image) :
  Spec.reaches w e0 i l e ->
  S i < MAX_CAPTURES ->
  grabs e = grabs e0 ++ caps ->
  stop_capture_flag w i = false ->
  screenshot w i GAME_WINDOW_REGION = inr x ->
  save w i (screenshot_filename i) = None ->
  (iterations (fst (capture_loop w e0)) = S i <->
   exists front a b,
     caps = front ++ [a; b] /\ Spec.same b a = true /\ Spec.same x b = true).
Proof.
  intros Hr Hi Hg Hstop Hshot Hsave.
  destruct (reaches_count w e0 i l e Hr) as [caps0 (Hg0 & Hinv & Hconv)].
  assert (caps0 = caps) by (rewrite Hg in Hg0; now apply app_inv_head in Hg0).
  subst caps0.
  destruct (reaches_files _ _ _ _ _ Hr) as [_ Hit].
  destruct (iteration_ok w i l e x Hstop Hshot Hsave) as [e' (Hiter & _)].
  assert (Hcount : 2 <= Runs.next_count x l <->
                   exists front a b,
                     caps = front ++ [a; b] /\ Spec.same b a = true /\
                     Spec.same x b = true).
  { destruct Hinv as (Hprev & Hlt & Hpair & _). unfold Runs.next_count. split.
    - intros Hge. destruct (previous_screenshot l) as [p|] eqn:Hp; [|lia].
      destruct (Spec.same x p) eqn:Hsame; [|lia].
      destruct (Hconv ltac:(lia)) as [front [a [b [-> Hab]]]].
      replace (front ++ [a; b]) with ((front ++ [a]) ++ [b]) in Hprev
        by (now rewrite <- app_assoc).
      rewrite map_app in Hprev. cbn [map] in Hprev.
      rewrite last_last in Hprev. injection Hprev as ->.
      exists front, a, b. auto.
    - intros [front [a [b (-> & Hab & Hxb)]]].
      specialize (Hpair front a b eq_refl Hab).
      replace (front ++ [a; b]) with ((front ++ [a]) ++ [b]) in Hprev
        by (now rewrite <- app_assoc).
      rewrite map_app in Hprev. cbn [map] in Hprev.
      rewrite last_last in Hprev. rewrite Hprev, Hxb. lia. }
  rewrite <- Hcount. unfold capture_loop.
  replace MAX_CAPTURES with (i + S (S (MAX_CAPTURES - S (S i)))) by lia.
  rewrite (reaches_for_range _ _ _ _ _ Hr). cbn [seq for_range]. rewrite Hiter.
  destruct (2 <=? Runs.next_count x l) eqn:Hc; cbv beta iota.
  - apply Nat.leb_le in Hc. cbn [fst iterations Runs.advanced].
    rewrite Hit. tauto.
  - apply Nat.leb_gt in Hc.
    pose proof (iteration_ticks w (S i) (Runs.advanced i x l) e') as Ht.
    destruct (iteration w (S i) (Runs.advanced i x l) e') as [[fl l2] e2].
    cbn [fst snd Runs.advanced iterations] in Ht.
    split; [|lia]. intros Heq. exfalso.
    destruct fl; cbn [fst] in Heq.
    + pose proof (for_range_mono w (seq (S (S i)) (MAX_CAPTURES - S (S i))) l2 e2).
      lia.
    + lia.
Qed.

Lemma duplicate_rule_exact_witness :
  iterations (fst (capture_loop Samples.still no_effects)) = 3 <->
  exists front a b,
    [Samples.frame 7; Samples.frame 7] = front ++ [a; b] /\
    Spec.same b a = true /\ Spec.same (Samples.frame 7) b = true.
Proof.
  assert (R0 : Spec.reaches Samples.still no_effects 0 initial no_effects)
    by constructor.
  pose proof (Spec.reaches_next R0 eq_refl) as R1.
  pose proof (Spec.reaches_next R1 eq_refl) as R2.
  apply (duplicate_rule_exact Samples.still no_effects 2 _ _
           [Samples.frame 7; Samples.frame 7] (Samples.frame 7) R2).
  - unfold MAX_CAPTURES. lia.
  - reflexivity.
  - reflexivity.
  - reflexivity.
  - reflexivity.
Defined.

End DuplicateStop.

(* ================================================================== *)
(** * More about the remote extraction *)

Section GeminiMore.

Import Gemini.

Variable w : World.

Lemma attach_images_fails (pre : list string) (datas : list (list Init.Byte.byte))
  (p : string) (post : list string) (ex : exn) :
  Forall2 (fun p d => read_bytes w p = inr d) pre datas ->
  read_bytes w p = inl ex ->
  forall contents, attach_images w (pre ++ p :: post) contents = inl ex.
Proof.
  induction 1 as [|q d pre datas Hq _ IH]; intros Hp contents; cbn.
  - now rewrite Hp.
  - rewrite Hq. now apply IH.
Qed.

(** The body of the [try] and its handler touch neither the frames nor
    the files. *)
Lemma try_body_captures (contents : list Part) (e : Effects) :
  grabs (snd (try_body w contents e)) = grabs e /\
  saved (snd (try_body w contents e)) = saved e.
Proof.
  unfold try_body.
  repeat match goal with
         | |- context [match ?x with _ => _ end] => destruct x
         end; cbn; auto.
Qed.

Lemma handler_captures (ex : exn) (fr : Frame) (e : Effects) :
  grabs (snd (handler ex fr e)) = grabs e /\
  saved (snd (handler ex fr e)) = saved e.
Proof. unfold handler. destruct (response fr); cbn; auto. Qed.

(** What a call may do to the outside: print, and issue at most one
    request. *)
Lemma extract_with_gemini_frame (paths : list string) (rf : float) (e : Effects) :
  exists rs,
    requests (snd (extract_with_gemini w paths rf e)) = requests e ++ rs /\
    List.length rs <= 1 /\
    grabs (snd (extract_with_gemini w paths rf e)) = grabs e /\
    saved (snd (extract_with_gemini w paths rf e)) = saved e /\
    workbooks (snd (extract_with_gemini w paths rf e)) = workbooks e.
Proof.
  pose proof (extract_with_gemini_workbooks w paths rf e) as Hwb.
  unfold extract_with_gemini in *.
  destruct (api_key_of w);
    [|exists []; cbn; rewrite app_nil_r; repeat split; auto].
  destruct (attach_images w paths [TextPart prompt]) as [ex|contents];
    [exists []; cbn; rewrite app_nil_r; repeat split; auto|].
  match goal with
  | |- context [try_body w ?c ?e0] =>
      pose proof (try_body_effects w c e0) as [Hr _];
      pose proof (try_body_captures c e0) as [Hg Hs];
      destruct (try_body w c e0) as [[[ex|] fr] e1]
  end; cbn [snd requests grabs saved print] in *.
  - pose proof (handler_effects ex fr e1) as [Hr' _].
    pose proof (handler_captures ex fr e1) as [Hg' Hs'].
    destruct (handler ex fr e1) as [[ex'|] e2]; cbn [snd] in *;
      exists [(MODEL, contents)]; cbn [List.length];
      repeat split; auto; congruence.
  - exists [(MODEL, contents)]. cbn [List.length]. repeat split; auto.
Qed.

End GeminiMore.

Section GeminiMoreClaims.

Import Gemini.

(** X10.  A well-formed answer: when the cleaned response parses to an
    object whose "players" entry is a list, the call returns exactly that
    list, having issued one request and printed the batch size and the
    number of members. *)
Theorem players_returned (w : World) (image_paths : list string)
  (resize_factor : float) (e : Effects) (key : string) (contents : list Part)
  (resp : Response) (t : string) (d : list (string * json))
  (players : list json) :
  api_key_of w = Some key ->
  attach_images w image_paths [TextPart prompt] = inr contents ->
  generate_content w MODEL contents = inr resp ->
  text resp = Some t ->
  json_loads w (clean t) = inr (JDict d) ->
  lookup "players" d = Some (JList players) ->
  fst (extract_with_gemini w image_paths resize_factor e) = inr players /\
  requests (snd (extract_with_gemini w image_paths resize_factor e))
    = requests e ++ [(MODEL, contents)] /\
  stdout (snd (extract_with_gemini w image_paths resize_factor e))
    = stdout e ++
      [("Processing batch of " ++ str_nat (List.length image_paths)
        ++ " images with Gemini...")%string;
       ("  Extracted " ++ str_nat (List.length players)
        ++ " members from this batch.")%string].
Proof.
  intros Hkey Hatt Hgen Htext Hjson Hplayers.
  unfold extract_with_gemini, try_body.
  rewrite Hkey, Hatt, Hgen, Htext, Hjson. cbn [contains getitem].
  rewrite Hplayers. cbn [fst snd all_members app requests stdout print
                         record_request].
  repeat split. now rewrite <- app_assoc.
Qed.

Lemma players_returned_witness :
  fst (extract_with_gemini Scenarios.answering ["a.png"]%string Samples.one
         no_effects)
    = inr [Scenarios.ann; Scenarios.bob; Scenarios.ann] /\
  List.length (requests (snd (extract_with_gemini Scenarios.answering
                                ["a.png"]%string Samples.one no_effects))) = 1.
Proof.
  destruct (players_returned Scenarios.answering ["a.png"]%string Samples.one
              no_effects "secret"%string
              [TextPart prompt;
               BytesPart [Init.Byte.x89; Init.Byte.x50; Init.Byte.x4e; Init.Byte.x47]
                 "image/png"]
              (MkResponse (Some Scenarios.fenced_answer))
              Scenarios.fenced_answer
              [("players"%string,
                JList [Scenarios.ann; Scenarios.bob; Scenarios.ann])]
              [Scenarios.ann; Scenarios.bob; Scenarios.ann]
              eq_refl eq_refl eq_refl eq_refl eq_refl eq_refl)
    as (H1 & H2 & _).
  split; [exact H1 | now rewrite H2].
Defined.

(** X11.  An image file that cannot be read is fatal for the call: the
    error of [open]/[read] reaches the caller (the loop that reads the
    files stands before the [try]) and no request is issued. *)
Theorem unreadable_image_raises (w : World) (pre : list string)
  (datas : list (list Init.Byte.byte)) (p : string) (post : list string)
  (resize_factor : float) (e : Effects) (key : string) (ex : exn) :
  api_key_of w = Some key ->
  Forall2 (fun p d => read_bytes w p = inr d) pre datas ->
  read_bytes w p = inl ex ->
  fst (extract_with_gemini w (pre ++ p :: post) resize_factor e) = inl ex /\
  requests (snd (extract_with_gemini w (pre ++ p :: post) resize_factor e))
    = requests e.
Proof.
  intros Hkey Hpre Hp. unfold extract_with_gemini.
  rewrite Hkey, (attach_images_fails w pre datas p post ex Hpre Hp).
  split; reflexivity.
Qed.

Lemma unreadable_image_raises_witness :
  fst (extract_with_gemini Scenarios.unreadable ["a.png"; "b.png"; "c.png"]%string
         Samples.one no_effects)
    = inl (Exn (OtherException "FileNotFoundError")
             "[Errno 2] No such file or directory: 'b.png'") /\
  requests (snd (extract_with_gemini Scenarios.unreadable
                   ["a.png"; "b.png"; "c.png"]%string Samples.one no_effects))
    = [].
Proof.
  apply (unreadable_image_raises Scenarios.unreadable ["a.png"%string]
           [[Init.Byte.x89; Init.Byte.x50; Init.Byte.x4e; Init.Byte.x47]]
           "b.png"%string ["c.png"%string] Samples.one no_effects
           "secret"%string).
  - reflexivity.
  - repeat constructor.
  - reflexivity.
Defined.

(** X12.  No retry, no side channel: whatever the world answers, a call
    issues at most one remote request, and it neither grabs a frame nor
    writes an image or a spreadsheet. *)
Theorem at_most_one_request (w : World) (image_paths : list string)
  (resize_factor : float) (e : Effects) :
  exists rs,
    requests (snd (extract_with_gemini w image_paths resize_factor e))
      = requests e ++ rs /\
    List.length rs <= 1 /\
    grabs (snd (extract_with_gemini w image_paths resize_factor e)) = grabs e /\
    saved (snd (extract_with_gemini w image_paths resize_factor e)) = saved e /\
    workbooks (snd (extract_with_gemini w image_paths resize_factor e))
      = workbooks e.
Proof. apply extract_with_gemini_frame. Qed.

(** X13.  A credential that is set but empty counts as missing ([if not
    api_key]): the call returns the empty list and issues no request. *)
Theorem empty_credential (w : World) (image_paths : list string)
  (resize_factor : float) (e : Effects) :
  environ_get w "GEMINI_API_KEY" = Some ""%string ->
  fst (extract_with_gemini w image_paths resize_factor e) = inr [] /\
  requests (snd (extract_with_gemini w image_paths resize_factor e))
    = requests e.
Proof.
  intros H. unfold extract_with_gemini, api_key_of. rewrite H. split; reflexivity.
Qed.

Lemma empty_credential_witness :
  fst (extract_with_gemini Scenarios.empty_key ["a.png"]%string Samples.one
         no_effects) = inr [] /\
  requests (snd (extract_with_gemini Scenarios.empty_key ["a.png"]%string
                   Samples.one no_effects)) = [].
Proof.
  apply (empty_credential Scenarios.empty_key ["a.png"]%string Samples.one
           no_effects).
  reflexivity.
Defined.

End GeminiMoreClaims.

Section FenceFacts.

Import Py.

Lemma lstrip_app_space (a b : list ascii) :
  Forall (fun c => isspace c = true) a -> lstrip (a ++ b) = lstrip b.
Proof. induction 1 as [|c a Hc _ IH]; cbn; [reflexivity | now rewrite Hc]. Qed.

Lemma lstrip_no_space_head (m : list ascii) :
  Spec.no_edge_space m -> lstrip m = m.
Proof. destruct m as [|c m]; cbn; [reflexivity | now intros ->]. Qed.

Lemma strip_surrounded (ws1 m ws2 : list ascii) :
  Forall (fun c => isspace c = true) ws1 ->
  Forall (fun c => isspace c = true) ws2 ->
  m <> [] -> Spec.no_edge_space m -> Spec.no_edge_space (rev m) ->
  strip (ws1 ++ m ++ ws2) = m.
Proof.
  intros H1 H2 Hne Hh Hl. unfold strip, rstrip.
  rewrite (lstrip_app_space ws1 _ H1).
  rewrite (lstrip_no_space_head (m ++ ws2)) by (destruct m; [contradiction | exact Hh]).
  rewrite rev_app_distr, (lstrip_app_space (rev ws2) _ (Forall_rev H2)).
  rewrite (lstrip_no_space_head _ Hl). apply rev_involutive.
Qed.

Lemma starts_with_app (old rest : list ascii) : starts_with old (old ++ rest) = true.
Proof. induction old as [|c old IH]; cbn; [reflexivity|]. now rewrite Ascii.eqb_refl. Qed.

Lemma replace_from_skip (old new a rest : list ascii) :
  replace_from old new (List.length a) (a ++ rest) = replace_from old new 0 rest.
Proof.
  induction a as [|c a IH]; [destruct rest; reflexivity|]. cbn. exact IH.
Qed.

(** An occurrence at the head is replaced, and the scan goes on behind
    it. *)
Lemma replace_hit (o : ascii) (old' new rest : list ascii) :
  replace (o :: old') new ((o :: old') ++ rest)
    = new ++ replace (o :: old') new rest.
Proof.
  unfold replace. cbn [app replace_from].
  change (o :: old' ++ rest) with ((o :: old') ++ rest).
  rewrite starts_with_app.
  replace (List.length (o :: old') - 1) with (List.length old') by (cbn; lia).
  now rewrite replace_from_skip.
Qed.

(** Characters other than the first of [old] pass through. *)
Lemma replace_pass (o : ascii) (old' new a rest : list ascii) :
  Forall (fun c => Ascii.eqb o c = false) a ->
  replace (o :: old') new (a ++ rest) = a ++ replace (o :: old') new rest.
Proof.
  unfold replace. induction 1 as [|c a Hc _ IH]; [reflexivity|].
  cbn [app replace_from starts_with]. rewrite Hc. cbn [andb]. now rewrite IH.
Qed.

End FenceFacts.

Section FenceClaims.

Import Py Gemini.

(** X14.  Stripping the fence: for an answer made of the opening fence
    with its [json] tag, a body without backquotes and the closing fence,
    with any whitespace around the whole, what is handed to [json.loads]
    is exactly the body. *)
Theorem clean_fenced_answer (ws1 body ws2 : string) :
  Forall (fun c => isspace c = true) (list_ascii_of_string ws1) ->
  Forall (fun c => isspace c = true) (list_ascii_of_string ws2) ->
  Forall (fun c => Ascii.eqb "`" c = false) (list_ascii_of_string body) ->
  clean (ws1 ++ "```json" ++ body ++ "```" ++ ws2) = body.
Proof.
  intros H1 H2 Hb. unfold clean. rewrite !list_ascii_app.
  set (J := list_ascii_of_string "```json").
  set (F := list_ascii_of_string "```").
  set (B := list_ascii_of_string body) in *.
  replace (list_ascii_of_string ws1 ++ J ++ B ++ F ++ list_ascii_of_string ws2)
    with (list_ascii_of_string ws1 ++ (J ++ B ++ F) ++ list_ascii_of_string ws2)
    by (now rewrite <- !app_assoc).
  rewrite strip_surrounded; auto.
  - subst J F. cbn [list_ascii_of_string].
    rewrite replace_hit. cbn [app]. rewrite (replace_pass _ _ _ B _ Hb).
    replace (replace ["`"; "`"; "`"; "j"; "s"; "o"; "n"]%char []
               ["`"; "`"; "`"]%char)
      with ["`"; "`"; "`"]%char by reflexivity.
    rewrite (replace_pass _ _ _ B _ Hb).
    replace (replace ["`"; "`"; "`"]%char [] ["`"; "`"; "`"]%char) with (@nil ascii)
      by reflexivity.
    rewrite app_nil_r. subst B. apply string_of_list_ascii_of_string.
  - discriminate.
  - reflexivity.
  - rewrite !rev_app_distr. reflexivity.
Qed.

Lemma clean_fenced_answer_witness :
  clean Scenarios.fenced_answer = (nl ++ Scenarios.players_json ++ nl)%string.
Proof.
  apply (clean_fenced_answer "" (nl ++ Scenarios.players_json ++ nl) nl).
  - constructor.
  - repeat constructor.
  - vm_compute. repeat constructor.
Defined.

End FenceClaims.

(* ================================================================== *)
(** * More about the aggregation *)

Section AggregationMore.

Import Aggregation.

(** The sheet of the kept rows depends on the keys only. *)
Lemma sheet_kept (df : DataFrame) :
  forall seen,
  sheet_of (select df (map negb (duplicated_from seen df)))
    = Rows.first_seen seen (sheet_of df).
Proof.
  induction df as [|[i r] df IH]; intros seen; [reflexivity|].
  rewrite keep_cons.
  change (sheet_of ((i, r) :: df)) with (key r :: sheet_of df).
  cbn [Rows.first_seen].
  destruct (existsb (key_eqb (key r)) seen); [apply IH|].
  match goal with
  | |- sheet_of ((i, r) :: ?x) = _ =>
      change (sheet_of ((i, r) :: x)) with (key r :: sheet_of x)
  end.
  f_equal. apply IH.
Qed.

Lemma sheet_unique_members (records : list MemberRecord) :
  sheet_of (unique_members records) = Rows.first_seen [] (map key records).
Proof.
  unfold unique_members, drop_duplicates, duplicated.
  now rewrite sheet_of_reset_index, sheet_kept, sheet_of_DataFrame.
Qed.

Lemma seen_same (k : string * Z) (s1 s2 : list (string * Z)) :
  (forall k, In k s1 <-> In k s2) ->
  existsb (key_eqb k) s1 = existsb (key_eqb k) s2.
Proof.
  intros H.
  destruct (existsb (key_eqb k) s1) eqn:E1, (existsb (key_eqb k) s2) eqn:E2;
    try reflexivity.
  - apply seen_spec, H, seen_spec in E1. congruence.
  - apply seen_spec, H, seen_spec in E2. congruence.
Qed.

Lemma first_seen_ext (ks : list (string * Z)) :
  forall s1 s2, (forall k, In k s1 <-> In k s2) ->
  Rows.first_seen s1 ks = Rows.first_seen s2 ks.
Proof.
  induction ks as [|k ks IH]; intros s1 s2 H; [reflexivity|].
  cbn [Rows.first_seen]. rewrite (seen_same k s1 s2 H).
  rewrite (IH (k :: s1) (k :: s2)); [reflexivity|].
  intros k'. cbn. rewrite H. tauto.
Qed.

Lemma first_seen_app (a : list (string * Z)) :
  forall seen b,
  Rows.first_seen seen (a ++ b)
    = Rows.first_seen seen a ++ Rows.first_seen (rev a ++ seen) b.
Proof.
  induction a as [|k a IH]; intros seen b; [reflexivity|].
  cbn [app Rows.first_seen rev]. rewrite IH, <- app_assoc. cbn [app].
  destruct (existsb (key_eqb k) seen); reflexivity.
Qed.

Lemma first_seen_more (extra ks : list (string * Z)) :
  forall seen,
  Rows.first_seen (extra ++ seen) ks
    = filter (Rows.fresh extra) (Rows.first_seen seen ks).
Proof.
  induction ks as [|k ks IH]; intros seen; [reflexivity|].
  cbn [Rows.first_seen].
  assert (Hnext : Rows.first_seen (k :: extra ++ seen) ks
                  = filter (Rows.fresh extra) (Rows.first_seen (k :: seen) ks)).
  { rewrite <- IH. apply first_seen_ext. intros k'. cbn.
    rewrite !in_app_iff. cbn. tauto. }
  rewrite existsb_app, Hnext.
  assert (Hf : Rows.fresh extra k = negb (existsb (key_eqb k) extra))
    by reflexivity.
  destruct (existsb (key_eqb k) extra), (existsb (key_eqb k) seen);
    cbn [orb filter]; try rewrite Hf; reflexivity.
Qed.

Lemma first_seen_all (ks : list (string * Z)) :
  forall seen,
  NoDup ks -> (forall k, In k ks -> ~ In k seen) ->
  Rows.first_seen seen ks = ks.
Proof.
  induction ks as [|k ks IH]; intros seen Hnd Hdis; [reflexivity|].
  inversion Hnd as [|? ? Hk Hnd']; subst. cbn [Rows.first_seen].
  destruct (existsb (key_eqb k) seen) eqn:E.
  - apply seen_spec in E. exfalso. apply (Hdis k); [now left | exact E].
  - f_equal. apply IH; [exact Hnd'|].
    intros k' Hin [<-|Hs]; [contradiction|].
    apply (Hdis k'); [now right | exact Hs].
Qed.

Lemma key_inj (a b : MemberRecord) : key a = key b -> a = b.
Proof. destruct a, b. unfold key. cbn. now intros [= -> ->]. Qed.

Lemma map_key_inj (a b : list MemberRecord) : map key a = map key b -> a = b.
Proof.
  revert b. induction a as [|x a IH]; intros [|y b] H; cbn [map] in H;
    try discriminate; [reflexivity|].
  assert (Hk : key x = key y) by (exact (f_equal (hd (key x)) H)).
  assert (Ht : map key a = map key b) by (exact (f_equal (@tl _) H)).
  apply key_inj in Hk. subst. f_equal. now apply IH.
Qed.

(** The rows of the exported table. *)
Lemma rows_unique_members (records : list MemberRecord) :
  map key (map snd (unique_members records))
    = Rows.first_seen [] (map key records).
Proof.
  rewrite <- sheet_unique_members. unfold sheet_of. now rewrite map_map.
Qed.

Lemma unique_members_labels (records : list MemberRecord) :
  unique_members records = pd_DataFrame (map snd (unique_members records)).
Proof.
  unfold unique_members at 1 2, reset_index, pd_DataFrame.
  rewrite snd_combine by (now rewrite length_seq, length_map).
  now rewrite length_map.
Qed.

Lemma unique_of_distinct (records : list MemberRecord) :
  NoDup (map key records) -> unique_members records = pd_DataFrame records.
Proof.
  intros Hnd. rewrite unique_members_labels. f_equal.
  apply map_key_inj. rewrite rows_unique_members.
  apply first_seen_all; [exact Hnd | auto].
Qed.

Lemma first_seen_NoDup (ks : list (string * Z)) :
  forall seen, NoDup (Rows.first_seen seen ks).
Proof.
  intros seen.
  assert (H : sheet_of (combine (seq 0 (List.length ks))
                          (map (fun k => Member (fst k) (snd k)) ks)) = ks).
  { unfold sheet_of. rewrite <- (map_map snd key).
    rewrite snd_combine by (now rewrite length_seq, length_map).
    rewrite map_map. rewrite <- (map_id ks) at 2. apply map_ext.
    intros [n p]. reflexivity. }
  rewrite <- H, <- sheet_kept. apply keep_keys.
Qed.

End AggregationMore.

Section AggregationMoreClaims.

Import Aggregation.



(** X16.  Deduplication is idempotent: exporting the rows of an exported
    table gives the same table. *)
Theorem unique_members_idempotent (records : list MemberRecord) :
  unique_members (map snd (unique_members records)) = unique_members records.
Proof.
  rewrite (unique_members_labels records) at 2.
  apply unique_of_distinct. rewrite rows_unique_members.
  apply first_seen_NoDup.
Qed.

Lemma sheet_of_app (l1 l2 : list MemberRecord) :
  sheet_of (unique_members (l1 ++ l2))
    = sheet_of (unique_members l1)
      ++ filter (Rows.fresh (map key l1)) (sheet_of (unique_members l2)).
Proof.
  rewrite !sheet_unique_members, map_app, first_seen_app.
  f_equal. rewrite <- first_seen_more. apply first_seen_ext.
  intros k. rewrite !in_app_iff, <- in_rev. cbn. tauto.
Qed.

Lemma filter_map_key (f : string * Z -> bool) (l : list MemberRecord) :
  filter f (map key l) = map key (filter (fun r => f (key r)) l).
Proof.
  induction l as [|r l IH]; [reflexivity|]. cbn [map filter].
  destruct (f (key r)); cbn [map]; now rewrite IH.
Qed.

(** X17.  Two batches: the rows of the deduplicated frame of a
    concatenation are the rows of the frame of the first list followed by
    those rows of the frame of the second whose (Name, Points) pair does
    not occur in the first. *)
Theorem unique_members_app (l1 l2 : list MemberRecord) :
  map snd (unique_members (l1 ++ l2))
    = map snd (unique_members l1)
      ++ filter (fun r => Rows.fresh (map key l1) (key r))
           (map snd (unique_members l2)).
Proof.
  apply map_key_inj.
  rewrite map_app, <- filter_map_key.
  assert (E : forall l, map key (map snd (unique_members l))
                        = sheet_of (unique_members l))
    by (intros l; unfold sheet_of; now rewrite map_map).
  rewrite !E. apply sheet_of_app.
Qed.

End AggregationMoreClaims.

(* ================================================================== *)
(** * More about the script as a whole *)

Section MainMore.

Import Capture Gemini Main.

Variable w : World.

Lemma iteration_requests (i : nat) (l : Locals) (e : Effects) :
  requests (snd (iteration w i l e)) = requests e.
Proof.
  destruct (stop_capture_flag w i) eqn:Hstop;
    [unfold iteration; now rewrite Hstop|].
  destruct (screenshot w i GAME_WINDOW_REGION) as [ex|x] eqn:Hshot.
  { unfold iteration. rewrite Hstop, Hshot. cbn [snd].
    match goal with
    | |- context [on_capture_error ex ?e0] =>
        destruct (error_frame ex e0) as (_ & _ & Hr & _); now rewrite Hr
    end. }
  destruct (save w i (screenshot_filename i)) as [ex|] eqn:Hsave.
  { unfold iteration. rewrite Hstop, Hshot, Hsave. cbn [snd].
    match goal with
    | |- context [on_capture_error ex ?e0] =>
        destruct (error_frame ex e0) as (_ & _ & Hr & _); now rewrite Hr
    end. }
  destruct (iteration_ok w i l e x Hstop Hshot Hsave) as [e' (-> & _ & _ & Hr & _)].
  exact Hr.
Qed.

Lemma for_range_requests (indices : list nat) :
  forall l e, requests (snd (for_range w indices l e)) = requests e.
Proof.
  induction indices as [|i rest IH]; intros l e; [reflexivity|].
  cbn [for_range]. pose proof (iteration_requests i l e) as H.
  destruct (iteration w i l e) as [[[|] l'] e']; cbn [snd] in *.
  - now rewrite IH.
  - exact H.
Qed.

(** Collecting the screenshots issues no request. *)
Lemma collect_requests (args : Args) (e : Effects) :
  requests (snd (collect w args e)) = requests e.
Proof.
  unfold collect. destruct (analyze_only args); cbn [negb].
  - destruct (glob_screenshots w); reflexivity.
  - unfold capture_loop.
    pose proof (for_range_requests (seq 0 MAX_CAPTURES) initial (print_banner e))
      as H.
    destruct (for_range w (seq 0 MAX_CAPTURES) initial (print_banner e))
      as [l e'].
    cbn [snd] in H. destruct (screenshot_only args); cbn [snd requests print];
      exact H.
Qed.

(** In analyze-only mode collecting the screenshots only prints. *)
Lemma collect_analyze_only (args : Args) (e : Effects) :
  analyze_only args = true ->
  fst (collect w args e) = Some (glob_screenshots w) /\
  grabs (snd (collect w args e)) = grabs e /\
  saved (snd (collect w args e)) = saved e.
Proof.
  intros H. unfold collect. rewrite H. cbn [negb].
  destruct (glob_screenshots w); repeat split.
Qed.

(** The export block writes at most one workbook, to the results file. *)
Lemma export_data_frame (data : list json) (e : Effects) :
  exists wbs,
    workbooks (snd (export_data w data e)) = workbooks e ++ wbs /\
    List.length wbs <= 1 /\
    Forall (fun wb => fst wb = Aggregation.excel_filename) wbs /\
    requests (snd (export_data w data e)) = requests e /\
    grabs (snd (export_data w data e)) = grabs e /\
    saved (snd (export_data w data e)) = saved e.
Proof.
  unfold export_data, Aggregation.export. destruct data as [|v data].
  { exists []. cbn. rewrite app_nil_r. repeat split; auto. }
  destruct (as_members (v :: data)) as [[|r records]|].
  - exists []. cbn. rewrite app_nil_r. repeat split; auto.
  - cbv zeta.
    destruct (to_excel w _) as [rows|ex [rows|]];
      [eexists [_] | eexists [_] | exists []]; cbn;
      try rewrite app_nil_r; repeat split; auto.
  - destruct (pandas_export w (v :: data)) as [rows|ex [rows|]];
      [eexists [_] | eexists [_] | exists []]; cbn;
      try rewrite app_nil_r; repeat split; auto.
Qed.

(** The part of the script after the capture phase: at most one request,
    at most one workbook, no frame and no image file. *)
Lemma analyse_and_export_frame (args : Args) (files : list string) (e : Effects) :
  exists rs wbs,
    requests (snd (analyse_and_export w args files e)) = requests e ++ rs /\
    List.length rs <= 1 /\
    workbooks (snd (analyse_and_export w args files e)) = workbooks e ++ wbs /\
    List.length wbs <= 1 /\
    Forall (fun wb => fst wb = Aggregation.excel_filename) wbs /\
    grabs (snd (analyse_and_export w args files e)) = grabs e /\
    saved (snd (analyse_and_export w args files e)) = saved e.
Proof.
  unfold analyse_and_export, analysis.
  assert (Hdata : forall res e1 rs,
            requests e1 = requests e ++ rs -> List.length rs <= 1 ->
            workbooks e1 = workbooks e -> grabs e1 = grabs e ->
            saved e1 = saved e ->
            let r := match res with
                     | inl ex => (Raised ex, e1)
                     | inr data => export_data w data e1
                     end in
            exists rs wbs,
              requests (snd r) = requests e ++ rs /\ List.length rs <= 1 /\
              workbooks (snd r) = workbooks e ++ wbs /\ List.length wbs <= 1 /\
              Forall (fun wb => fst wb = Aggregation.excel_filename) wbs /\
              grabs (snd r) = grabs e /\ saved (snd r) = saved e).
  { intros [ex|data] e1 rs Hr Hlen Hw Hg Hs r; subst r.
    - exists rs, []. cbn [snd]. rewrite app_nil_r. repeat split; auto.
    - destruct (export_data_frame data e1) as [wbs (H1 & H2 & H3 & H4 & H5 & H6)].
      exists rs, wbs. repeat split; auto; congruence. }
  destruct files as [|f files].
  - apply (Hdata (inr []) e []); auto. now rewrite app_nil_r.
  - match goal with
    | |- context [extract_with_gemini w ?p ?r ?e0] =>
        destruct (extract_with_gemini_frame w p r e0)
          as [rs (Hr & Hlen & Hg & Hs & Hw)];
        destruct (extract_with_gemini w p r e0) as [res e1]
    end.
    cbn [snd requests grabs saved workbooks print] in *.
    apply (Hdata res e1 rs); auto.
Qed.


End MainMore.

Section MainMoreClaims.

Import Capture Gemini Main.



(** X19.  A screenshot-only run never contacts the model and never writes
    a spreadsheet: it ends in [exit()] after the capture phase. *)
Theorem screenshot_only_run (w : World) (args : Args) (e : Effects) :
  analyze_only args = false ->
  screenshot_only args = true ->
  fst (main w args e) = Exited /\
  requests (snd (main w args e)) = requests e /\
  workbooks (snd (main w args e)) = workbooks e.
Proof.
  intros Ha Hs.
  pose proof (collect_requests w args e) as Hr.
  pose proof (collect_workbooks w args e) as Hw.
  unfold main. rewrite Ha, Hs. cbn [andb].
  unfold collect in *. rewrite Ha, Hs in *. cbn [negb] in *.
  destruct (capture_loop w (print_banner e)) as [l e'].
  cbn [fst snd] in *. auto.
Qed.

Lemma screenshot_only_run_witness :
  fst (main Samples.still Samples.screenshot_only_args no_effects) = Exited /\
  requests (snd (main Samples.still Samples.screenshot_only_args no_effects))
    = [] /\
  workbooks (snd (main Samples.still Samples.screenshot_only_args no_effects))
    = [].
Proof.
  apply (screenshot_only_run Samples.still Samples.screenshot_only_args
           no_effects); reflexivity.
Defined.

(** X20.  Without the credential a run still ends in an orderly way (it
    completes, or exits in screenshot-only mode), but it issues no
    request and writes no spreadsheet. *)
Theorem run_without_credential (w : World) (args : Args) (e : Effects) :
  analyze_only args && screenshot_only args = false ->
  environ_get w "GEMINI_API_KEY" = None ->
  (fst (main w args e) = Completed \/ fst (main w args e) = Exited) /\
  requests (snd (main w args e)) = requests e /\
  workbooks (snd (main w args e)) = workbooks e.
Proof.
  intros Hflags Hkey.
  pose proof (collect_requests w args e) as Hr.
  pose proof (collect_workbooks w args e) as Hw.
  unfold main. rewrite Hflags.
  destruct (collect w args e) as [[files|] e1]; cbn [fst snd] in *;
    [|repeat split; auto].
  unfold analyse_and_export, analysis.
  destruct files as [|f files]; [cbn; repeat split; auto|].
  unfold extract_with_gemini, api_key_of. rewrite Hkey.
  cbn. repeat split; auto.
Qed.

Lemma run_without_credential_witness :
  (fst (main Samples.no_key Samples.analyze_only_args no_effects) = Completed \/
   fst (main Samples.no_key Samples.analyze_only_args no_effects) = Exited) /\
  requests (snd (main Samples.no_key Samples.analyze_only_args no_effects)) = [] /\
  workbooks (snd (main Samples.no_key Samples.analyze_only_args no_effects)) = [].
Proof.
  apply (run_without_credential Samples.no_key Samples.analyze_only_args
           no_effects); reflexivity.
Defined.

(** X21.  Whatever the flags and the world, a run issues at most one
    remote request and writes at most one workbook, and a workbook it
    writes goes to Results/guild_members.xlsx. *)
Theorem one_request_one_workbook (w : World) (args : Args) (e : Effects) :
  exists rs wbs,
    requests (snd (main w args e)) = requests e ++ rs /\
    List.length rs <= 1 /\
    workbooks (snd (main w args e)) = workbooks e ++ wbs /\
    List.length wbs <= 1 /\
    Forall (fun wb => fst wb = Aggregation.excel_filename) wbs.
Proof.
  pose proof (collect_requests w args e) as Hr.
  pose proof (collect_workbooks w args e) as Hw.
  unfold main. destruct (analyze_only args && screenshot_only args).
  { exists [], []. cbn. rewrite !app_nil_r. repeat split; auto. }
  destruct (collect w args e) as [[files|] e1]; cbn [fst snd] in *.
  - destruct (analyse_and_export_frame w args files e1)
      as [rs [wbs (H1 & H2 & H3 & H4 & H5 & _)]].
    exists rs, wbs. repeat split; auto; congruence.
  - exists [], []. rewrite !app_nil_r. repeat split; auto.
Qed.

(** X22.  An analyze-only run never touches the screen: it grabs no frame
    and writes no image file. *)
Theorem analyze_only_never_captures (w : World) (args : Args) (e : Effects) :
  analyze_only args = true ->
  grabs (snd (main w args e)) = grabs e /\
  saved (snd (main w args e)) = saved e.
Proof.
  intros Ha. destruct (collect_analyze_only w args e Ha) as (Hf & Hg & Hs).
  unfold main. rewrite Ha. cbn [andb].
  destruct (screenshot_only args); [split; reflexivity|].
  destruct (collect w args e) as [files e1]; cbn [fst snd] in *. subst files.
  destruct (analyse_and_export_frame w args (glob_screenshots w) e1)
    as [rs [wbs (_ & _ & _ & _ & _ & H6 & H7)]].
  split; congruence.
Qed.

Lemma analyze_only_never_captures_witness :
  grabs (snd (main Scenarios.answering Samples.analyze_only_args no_effects))
    = [] /\
  saved (snd (main Scenarios.answering Samples.analyze_only_args no_effects))
    = [].
Proof.
  apply (analyze_only_never_captures Scenarios.answering
           Samples.analyze_only_args no_effects).
  reflexivity.
Defined.

(** X23.  Analyze-only with no saved screenshot: the script prints that no
    file was found and, although the message says it exits, runs on to
    the end; it completes with no request and no spreadsheet. *)
Theorem analyze_only_without_files (w : World) (args : Args) (e : Effects) :
  analyze_only args = true ->
  screenshot_only args = false ->
  glob_screenshots w = [] ->
  main w args e =
    (Completed,
     print ("No 'guild_screenshot_*.png' files found in the '"
            ++ ANALYSIS_FOLDER ++ "' directory. Exiting.")
       (print (String "010"%char
                 "--- Analyze-Only Mode: Searching for existing screenshots ---")
          e)).
Proof.
  intros Ha Hs Hg. unfold main, collect. rewrite Ha, Hs, Hg. reflexivity.
Qed.

Lemma analyze_only_without_files_witness :
  fst (main Scenarios.no_files Samples.analyze_only_args no_effects) = Completed /\
  requests (snd (main Scenarios.no_files Samples.analyze_only_args no_effects))
    = [] /\
  workbooks (snd (main Scenarios.no_files Samples.analyze_only_args no_effects))
    = [].
Proof.
  rewrite (analyze_only_without_files Scenarios.no_files
             Samples.analyze_only_args no_effects eq_refl eq_refl eq_refl).
  repeat split.
Defined.

End MainMoreClaims.
